(** * OtsuWinHdlr: the window-handle registry of [otsuwinhdlr/classes.py]

    A shallow embedding of the three classes [Window], [RecycleBinFolder]
    and [Explorer]: the class attribute [Window.handlers] (a Python dict,
    kept in insertion order), the objects with their name-mangled private
    attributes, and every method as a computation in a small state and
    exception monad.  The operating system, the clock and the process
    launcher are capabilities (type classes), so every theorem holds for any
    behaviour of the outside world. *)

From Stdlib Require Import ZArith QArith List String Ascii Bool Lia PeanoNat.
Import ListNotations.
Local Open Scope string_scope.
Local Open Scope list_scope.

(** ** Python dictionaries with integer keys

    [dict] keeps its items in insertion order; [d[k] = v] on a key that is
    present replaces the value in place, on an absent key appends; [del d[k]]
    leaves no item under [k]. *)

Module Dict.

Definition t (V : Type) : Type := list (Z * V).

Fixpoint mem {V} (k : Z) (d : t V) : bool :=
  match d with
  | [] => false
  | (k', _) :: d' => if Z.eqb k k' then true else mem k d'
  end.

Fixpoint get {V} (k : Z) (d : t V) : option V :=
  match d with
  | [] => None
  | (k', v) :: d' => if Z.eqb k k' then Some v else get k d'
  end.

Fixpoint del {V} (k : Z) (d : t V) : t V :=
  match d with
  | [] => []
  | (k', v) :: d' => if Z.eqb k k' then del k d' else (k', v) :: del k d'
  end.

Fixpoint set {V} (k : Z) (v : V) (d : t V) : t V :=
  match d with
  | [] => [(k, v)]
  | (k', v') :: d' => if Z.eqb k k' then (k', v) :: d' else (k', v') :: set k v d'
  end.

Definition keys {V} (d : t V) : list Z := map fst d.
Definition values {V} (d : t V) : list V := map snd d.

End Dict.

(** ** Objects, exceptions, events *)

Definition objid := nat.

Inductive cls : Type := CWindow | CRecycleBinFolder | CExplorer.

(** The instance dictionary of a window object.  The attribute names are the
    ones Python's name mangling gives to [self.__hdlr], [self.__first_title]
    and [self.__allow_chdir]; [None] is an attribute that has not been
    assigned. *)
Record obj : Type := mkObj {
  ob_class : cls;
  _Window__hdlr : option Z;
  _RecycleBinFolder__first_title : option string;
  _Explorer__allow_chdir : option bool;
  _Explorer__first_title : option string
}.

Definition new_obj (c : cls) : obj := mkObj c None None None None.

Inductive exn : Type :=
| TimeoutError (msg : string)
| RuntimeError (msg : string)
| AttributeError (attr : string)
| ValidationError (path : string).

(** Calls that leave the process, in the order they are made.  [EvRefresh]
    is a ghost event that marks an entry into [Window.refresh]. *)
Inductive event : Type :=
| EvFindWindowExW (title : string)
| EvIsWindowEnabled (h : Z)
| EvSendMessageW (h msg wparam lparam : Z)
| EvMoveWindow (h x y w ht : Z)
| EvGetWindowRect (h : Z)
| EvGetWindowTextW (h : Z)
| EvSleep (seconds : Q)
| EvTimer
| EvPopen (args : list string)
| EvValidate (path : string)
| EvRefresh.

(** ** The outside world

    [User32] is imported from [otsuwinhdlr/cfg.py], which is not among the
    source files, so it is a parameter: a type class with the signatures of
    the capability interface of the specification (find-window, is-enabled,
    get-rect, get-text, move-window, send-message) and of the call sites in
    [classes.py].  Each call may change the world. *)
Class User32 (World : Type) : Type := {
  FindWindowExW : option Z -> option Z -> option string -> string -> World -> Z * World;
  IsWindowEnabled : Z -> World -> bool * World;
  SendMessageW : Z -> Z -> Z -> Z -> World -> Z * World;
  MoveWindow : Z -> Z -> Z -> Z -> Z -> bool -> World -> bool * World;
  GetWindowRect : Z -> World -> (Z * Z * Z * Z) * World;
  GetWindowTextW : Z -> World -> string * World
}.

(** [time.sleep], [otsutil.Timer], [subprocess.Popen(...).wait()] and
    [otsuvalidator.CPath(...).validate].  [wiggle_begin timeout span w] is the
    number of control points the generator
    [Timer(seconds=timeout).wiggle_begin(span)] yields when started in world
    [w]; [wiggle_next] is the time that passes when the next one is asked
    for. *)
Class Runtime (World : Type) : Type := {
  time_sleep : Q -> World -> World;
  wiggle_begin : Z -> Q -> World -> nat;
  wiggle_next : Q -> World -> World;
  Popen_wait : list string -> World -> World;
  CPath_validate : string -> World -> option string;
  Path_name : string -> string
}.

(** ** Program state and the monad *)

Record State (World : Type) : Type := mkState {
  handlers : Dict.t objid;      (* Window.handlers *)
  heap : list obj;              (* the window objects, by identity *)
  world : World;
  trace : list event
}.
Arguments mkState {World}.
Arguments handlers {World}.
Arguments heap {World}.
Arguments world {World}.
Arguments trace {World}.

Inductive result (A : Type) : Type :=
| Ok (a : A)
| Raise (e : exn).
Arguments Ok {A}.
Arguments Raise {A}.

Definition M (World A : Type) : Type := State World -> result A * State World.

Definition ret {W A} (a : A) : M W A := fun st => (Ok a, st).

Definition raise {W A} (e : exn) : M W A := fun st => (Raise e, st).

Definition bind {W A B} (m : M W A) (k : A -> M W B) : M W B :=
  fun st =>
    match m st with
    | (Ok a, st') => k a st'
    | (Raise e, st') => (Raise e, st')
    end.

Declare Scope py_scope.
Delimit Scope py_scope with py.
Notation "x <- m ;; k" := (bind m (fun x => k))
  (at level 61, m at next level, right associativity) : py_scope.
Notation "m ;; k" := (bind m (fun _ => k))
  (at level 61, right associativity) : py_scope.
Notation "' pat <- m ;; k" := (bind m (fun x => match x with pat => k end))
  (at level 61, pat pattern, m at next level, right associativity) : py_scope.
Local Open Scope py_scope.

Fixpoint list_set {A} (l : list A) (i : nat) (a : A) : list A :=
  match l, i with
  | [], _ => []
  | _ :: l', O => a :: l'
  | x :: l', S i' => x :: list_set l' i' a
  end.

Section Primitives.
Context {W : Type}.

Definition get_handlers : M W (Dict.t objid) := fun st => (Ok (handlers st), st).

(** [h in Window.handlers], [del Window.handlers[h]] and
    [handlers[h] = self] on the one dict object that the class attribute
    names. *)
Definition contains (h : Z) : M W bool :=
  fun st => (Ok (Dict.mem h (handlers st)), st).

Definition delitem (h : Z) : M W unit :=
  fun st => (Ok tt, mkState (Dict.del h (handlers st)) (heap st) (world st) (trace st)).

Definition setitem (h : Z) (o : objid) : M W unit :=
  fun st => (Ok tt, mkState (Dict.set h o (handlers st)) (heap st) (world st) (trace st)).

Definition log (e : event) : M W unit :=
  fun st => (Ok tt, mkState (handlers st) (heap st) (world st) (trace st ++ [e])).

(** A call to the outside: the event is recorded, the world moves on. *)
Definition extern {A} (e : event) (f : W -> A * W) : M W A :=
  fun st =>
    let (a, w) := f (world st) in
    (Ok a, mkState (handlers st) (heap st) w (trace st ++ [e])).

Definition extern_ (e : event) (f : W -> W) : M W unit :=
  extern e (fun w => (tt, f w)).

(** [Cls.__new__]: a fresh object with an empty instance dictionary. *)
Definition alloc (c : cls) : M W objid :=
  fun st =>
    (Ok (List.length (heap st)),
     mkState (handlers st) (heap st ++ [new_obj c]) (world st) (trace st)).

Definition getattr {A} (name : string) (proj : obj -> option A) (self : objid) : M W A :=
  fun st =>
    match nth_error (heap st) self with
    | Some o =>
        match proj o with
        | Some a => (Ok a, st)
        | None => (Raise (AttributeError name), st)
        end
    | None => (Raise (AttributeError name), st)
    end.

Definition setattr (upd : obj -> obj) (self : objid) : M W unit :=
  fun st =>
    match nth_error (heap st) self with
    | Some o => (Ok tt, mkState (handlers st) (list_set (heap st) self (upd o))
                                (world st) (trace st))
    | None => (Ok tt, st)
    end.

Definition class_of (self : objid) : M W cls :=
  getattr "__class__" (fun o => Some (ob_class o)) self.

End Primitives.

Definition set_hdlr (h : Z) (o : obj) : obj :=
  mkObj (ob_class o) (Some h) (_RecycleBinFolder__first_title o)
        (_Explorer__allow_chdir o) (_Explorer__first_title o).

Definition set_recycle_first_title (t : string) (o : obj) : obj :=
  mkObj (ob_class o) (_Window__hdlr o) (Some t)
        (_Explorer__allow_chdir o) (_Explorer__first_title o).

Definition set_allow_chdir (b : bool) (o : obj) : obj :=
  mkObj (ob_class o) (_Window__hdlr o) (_RecycleBinFolder__first_title o)
        (Some b) (_Explorer__first_title o).

Definition set_explorer_first_title (t : string) (o : obj) : obj :=
  mkObj (ob_class o) (_Window__hdlr o) (_RecycleBinFolder__first_title o)
        (_Explorer__allow_chdir o) (Some t).

(** ** The classes of [classes.py] *)

(** The text of the [TimeoutError] of [Window.__init__]: an f-string around
    the requested title. *)
Definition dquote : string := String (ascii_of_nat 34) EmptyString.

Definition timeout_msg (title : string) : string :=
  ("ウィンドウ" ++ dquote ++ title ++ dquote ++ "のハンドルを取得できませんでした。")%string.

Definition WM_CLOSE : Z := 0x0010.

Definition dict_changed_size : exn :=
  RuntimeError "dictionary changed size during iteration".

(** What one pass through the body of the [for] loop of [Window.__init__]
    ends with: [continue] (or falling off the end of the body), or [break]. *)
Inductive loop_ctl : Type := LContinue | LBreak.

Section Classes.
Context {W : Type} {U : User32 W} {R : Runtime W}.

(** [Window.handler] (property). *)
Definition handler (self : objid) : M W Z :=
  getattr "_Window__hdlr" _Window__hdlr self.

(** [RecycleBinFolder.first_title] (property). *)
Definition RecycleBinFolder_first_title (self : objid) : M W string :=
  getattr "_RecycleBinFolder__first_title" _RecycleBinFolder__first_title self.

(** [Explorer.allow_chdir] and [Explorer.first_title] (properties). *)
Definition allow_chdir (self : objid) : M W bool :=
  getattr "_Explorer__allow_chdir" _Explorer__allow_chdir self.

Definition Explorer_first_title (self : objid) : M W string :=
  getattr "_Explorer__first_title" _Explorer__first_title self.

(** [first_title] as an attribute lookup on any object: the property of the
    object's class, and an [AttributeError] on a plain [Window], which has
    none. *)
Definition first_title (self : objid) : M W string :=
  c <- class_of self ;;
  match c with
  | CWindow => raise (AttributeError "first_title")
  | CRecycleBinFolder => RecycleBinFolder_first_title self
  | CExplorer => Explorer_first_title self
  end.

(** [Window.rect] and [Window.title] (properties). *)
Definition rect (self : objid) : M W (Z * Z * Z * Z) :=
  h <- handler self ;;
  extern (EvGetWindowRect h) (GetWindowRect h).

Definition title (self : objid) : M W string :=
  h <- handler self ;;
  extern (EvGetWindowTextW h) (GetWindowTextW h).

(** [Window.__bool__]. *)
Definition Window_bool (self : objid) : M W bool :=
  h <- handler self ;;
  present <- contains h ;;
  if negb present then ret false
  else
    h <- handler self ;;
    extern (EvIsWindowEnabled h) (IsWindowEnabled h).

(** [RecycleBinFolder.__bool__]. *)
Definition RecycleBinFolder_bool (self : objid) : M W bool :=
  b <- Window_bool self ;;
  if negb b then ret false
  else
    h <- handler self ;;
    t <- extern (EvGetWindowTextW h) (GetWindowTextW h) ;;
    ft <- RecycleBinFolder_first_title self ;;
    ret (String.eqb t ft).

(** [Explorer.__bool__]. *)
Definition Explorer_bool (self : objid) : M W bool :=
  b <- Window_bool self ;;
  if negb b then ret false
  else
    a <- allow_chdir self ;;
    if a then ret true
    else
      h <- handler self ;;
      t <- extern (EvGetWindowTextW h) (GetWindowTextW h) ;;
      ft <- Explorer_first_title self ;;
      ret (String.eqb t ft).

(** Truth value testing ([if not self], [while self], [if not wd]): the
    [__bool__] of the object's class. *)
Definition truth (self : objid) : M W bool :=
  c <- class_of self ;;
  match c with
  | CWindow => Window_bool self
  | CRecycleBinFolder => RecycleBinFolder_bool self
  | CExplorer => Explorer_bool self
  end.

(** [Window.close]. *)
Definition close (self : objid) : M W Z :=
  extern_ (EvSleep (5 # 100)) (time_sleep (5 # 100)) ;;
  h <- handler self ;;
  res <- extern (EvSendMessageW h WM_CLOSE 0 0) (SendMessageW h WM_CLOSE 0 0) ;;
  h <- handler self ;;
  present <- contains h ;;
  (if present then
     h <- handler self ;;
     delitem h
   else ret tt) ;;
  ret res.

(** [Window.join]: [while self: time.sleep(span)] may go on for ever, so the
    loop runs on fuel; [None] is a loop that has not ended within it. *)
Fixpoint join_loop (fuel : nat) (self : objid) (span : Q) : M W (option unit) :=
  match fuel with
  | O => ret None
  | S fuel' =>
      b <- truth self ;;
      if b then
        extern_ (EvSleep span) (time_sleep span) ;;
        join_loop fuel' self span
      else ret (Some tt)
  end.

Definition join (fuel : nat) (self : objid) (span : Q) : M W (option unit) :=
  r <- join_loop fuel self span ;;
  match r with
  | None => ret None
  | Some _ => close self ;; ret (Some tt)
  end.

(** [Window.move_window]. *)
Definition move_window (self : objid) (x y n_width n_height : Z) : M W bool :=
  b <- truth self ;;
  if negb b then close self ;; ret false
  else
    h <- handler self ;;
    extern (EvMoveWindow h x y n_width n_height)
           (MoveWindow h x y n_width n_height true).

(** Iteration over [d.values()] of the registry.  Every [next] of a dict
    iterator first compares the size of the dict with the size it had when
    the iterator was made, and raises [RuntimeError] when they differ; only
    then does it look for the item at its position.  [remaining] counts the
    positions not yet visited. *)
Fixpoint for_values (body : objid -> M W unit) (used pos remaining : nat) : M W unit :=
  hs <- get_handlers ;;
  if negb (Nat.eqb (List.length hs) used) then raise dict_changed_size
  else
    match remaining with
    | O => ret tt
    | S remaining' =>
        match nth_error hs pos with
        | None => ret tt
        | Some (_, wd) => body wd ;; for_values body used (S pos) remaining'
        end
    end.

(** The body of the loop of [Window.refresh]: [if not wd: cls.close(wd)]. *)
Definition refresh_one (wd : objid) : M W unit :=
  b <- truth wd ;;
  if negb b then close wd ;; ret tt else ret tt.

(** [Window.refresh] (class method). *)
Definition refresh : M W unit :=
  log EvRefresh ;;
  hs <- get_handlers ;;
  for_values refresh_one (List.length hs) 0 (List.length hs).

(** [Window.size] (property). *)
Definition size (self : objid) : M W (Z * Z) :=
  b <- truth self ;;
  if negb b then close self ;; ret ((-1)%Z, (-1)%Z)
  else
    ' (left_, top, right_, bottom) <- rect self ;;
    ret (Z.abs (left_ - right_), Z.abs (top - bottom)).

(** [Window.set_position]. *)
Definition set_position (self : objid) (x y : Z) : M W bool :=
  b <- truth self ;;
  if negb b then close self ;; ret false
  else
    ' (w, h) <- size self ;;
    hd <- handler self ;;
    extern (EvMoveWindow hd x y w h) (MoveWindow hd x y w h true).

(** [Window.set_size]. *)
Definition set_size (self : objid) (width height : Z) : M W bool :=
  b <- truth self ;;
  if negb b then close self ;; ret false
  else
    ' (x, y, _, _) <- rect self ;;
    hd <- handler self ;;
    extern (EvMoveWindow hd x y width height) (MoveWindow hd x y width height true).

(** The body of the [for] loop of [Window.__init__], lines 32 to 40. *)
Definition attempt (self : objid) (title : string) : M W loop_ctl :=
  hdlr <- extern (EvFindWindowExW title) (FindWindowExW None None None title) ;;
  if negb (Z.eqb hdlr 0) then
    present <- contains hdlr ;;
    skip <- (if present then
               refresh ;;
               contains hdlr
             else ret false) ;;
    if skip then ret LContinue
    else
      setitem hdlr self ;;
      setattr (set_hdlr hdlr) self ;;
      ret LBreak
  else ret LContinue.

(** The [for ... else] of [Window.__init__] over the control points that are
    left. *)
Fixpoint poll (self : objid) (title : string) (span : Q) (points : nat) : M W unit :=
  match points with
  | O => raise (TimeoutError (timeout_msg title))
  | S points' =>
      extern_ EvTimer (wiggle_next span) ;;
      c <- attempt self title ;;
      match c with
      | LBreak => ret tt
      | LContinue => poll self title span points'
      end
  end.

(** [Window.__init__]. *)
Definition Window_init (self : objid) (title : string)
    (timeout_seconds : Z) (span_seconds : Q) : M W unit :=
  points <- (fun st => (Ok (wiggle_begin timeout_seconds span_seconds (world st)), st)) ;;
  poll self title span_seconds points.

(** [RecycleBinFolder.__init__]. *)
Definition RecycleBinFolder_init (self : objid)
    (timeout_seconds : Z) (span_seconds : Q) : M W unit :=
  setattr (set_recycle_first_title "ごみ箱") self ;;
  extern_ (EvPopen ["explorer"; "shell:RecycleBinFolder"])
          (Popen_wait ["explorer"; "shell:RecycleBinFolder"]) ;;
  t <- RecycleBinFolder_first_title self ;;
  Window_init self t timeout_seconds span_seconds.

(** [Explorer.__init__]; [title] is the keyword argument, [None] by
    default, and an empty string is as false as [None]. *)
Definition Explorer_init (self : objid) (path : string) (allow : bool)
    (timeout_seconds : Z) (span_seconds : Q) (title_kw : option string) : M W unit :=
  v <- extern (EvValidate path) (fun w => (CPath_validate path w, w)) ;;
  match v with
  | None => raise (ValidationError path)
  | Some path =>
      extern_ (EvPopen ["explorer"; path]) (Popen_wait ["explorer"; path]) ;;
      let t := match title_kw with
               | Some t => if String.eqb t "" then Path_name path else t
               | None => Path_name path
               end in
      Window_init self t timeout_seconds span_seconds ;;
      setattr (set_allow_chdir allow) self ;;
      ft <- title self ;;
      setattr (set_explorer_first_title ft) self
  end.

(** Construction: [__new__], then [__init__]; the caller gets the object
    only when [__init__] returns. *)
Definition Window_new (title : string) (timeout_seconds : Z) (span_seconds : Q) : M W objid :=
  self <- alloc CWindow ;;
  Window_init self title timeout_seconds span_seconds ;;
  ret self.

Definition RecycleBinFolder_new (timeout_seconds : Z) (span_seconds : Q) : M W objid :=
  self <- alloc CRecycleBinFolder ;;
  RecycleBinFolder_init self timeout_seconds span_seconds ;;
  ret self.

Definition Explorer_new (path : string) (allow : bool)
    (timeout_seconds : Z) (span_seconds : Q) (title_kw : option string) : M W objid :=
  self <- alloc CExplorer ;;
  Explorer_init self path allow timeout_seconds span_seconds title_kw ;;
  ret self.

End Classes.

(** ** Clients

    What a program that uses the package can do between two observations of
    the registry: construct a window of one of the three classes, call a
    method or read a property of an object, or let the outside world change
    by itself (a user closes or renames a window, the OS gives a handle
    value to a new window). *)

Inductive call (W : Type) : Type :=
| CallWindow (title : string) (timeout_seconds : Z) (span_seconds : Q)
| CallRecycleBinFolder (timeout_seconds : Z) (span_seconds : Q)
| CallExplorer (path : string) (allow : bool) (timeout_seconds : Z)
               (span_seconds : Q) (title_kw : option string)
| CallBool (o : objid)
| CallClose (o : objid)
| CallJoin (fuel : nat) (o : objid) (span : Q)
| CallMoveWindow (o : objid) (x y n_width n_height : Z)
| CallRefresh
| CallSetPosition (o : objid) (x y : Z)
| CallSetSize (o : objid) (width height : Z)
| CallRect (o : objid)
| CallSize (o : objid)
| CallTitle (o : objid)
| CallOutside (f : W -> W).
Arguments CallWindow {W}.
Arguments CallRecycleBinFolder {W}.
Arguments CallExplorer {W}.
Arguments CallBool {W}.
Arguments CallClose {W}.
Arguments CallJoin {W}.
Arguments CallMoveWindow {W}.
Arguments CallRefresh {W}.
Arguments CallSetPosition {W}.
Arguments CallSetSize {W}.
Arguments CallRect {W}.
Arguments CallSize {W}.
Arguments CallTitle {W}.
Arguments CallOutside {W}.

(** Calls that are not constructor calls. *)
Definition is_method {W} (c : call W) : bool :=
  match c with
  | CallWindow _ _ _ | CallRecycleBinFolder _ _ | CallExplorer _ _ _ _ _ => false
  | _ => true
  end.

Section Clients.
Context {W : Type} {U : User32 W} {R : Runtime W}.

Definition run {A} (m : M W A) (st : State W) : State W := snd (m st).

Definition exec (c : call W) (st : State W) : State W :=
  match c with
  | CallWindow t ts ss => run (Window_new t ts ss) st
  | CallRecycleBinFolder ts ss => run (RecycleBinFolder_new ts ss) st
  | CallExplorer p a ts ss t => run (Explorer_new p a ts ss t) st
  | CallBool o => run (truth o) st
  | CallClose o => run (close o) st
  | CallJoin fuel o span => run (join fuel o span) st
  | CallMoveWindow o x y w h => run (move_window o x y w h) st
  | CallRefresh => run refresh st
  | CallSetPosition o x y => run (set_position o x y) st
  | CallSetSize o w h => run (set_size o w h) st
  | CallRect o => run (rect o) st
  | CallSize o => run (size o) st
  | CallTitle o => run (title o) st
  | CallOutside f => mkState (handlers st) (heap st) (f (world st)) (trace st)
  end.

Definition exec_all (cs : list (call W)) (st : State W) : State W :=
  fold_left (fun s c => exec c s) cs st.

(** The state of a process that has just imported the module. *)
Definition initial (w : W) : State W := mkState [] [] w [].

Inductive reachable : State W -> Prop :=
| reach_initial (w : W) : reachable (initial w)
| reach_exec (c : call W) (st : State W) : reachable st -> reachable (exec c st).

(** Every registered entry [(h, o)] is an object whose handle is [h]. *)
Definition owns (st : State W) (o : objid) (h : Z) : Prop :=
  exists ob, nth_error (heap st) o = Some ob /\ _Window__hdlr ob = Some h.

Definition registry_ok (st : State W) : Prop :=
  NoDup (Dict.keys (handlers st)) /\
  (forall h o, In (h, o) (handlers st) -> owns st o h).

End Clients.

(** ** A small desktop

    A concrete outside world on which the definitions can be run: a list of
    top-level windows.  A new window gets the least handle value that is not
    in use, so a value is used again after its window has gone. *)

Module Desktop.

Record win : Type := mkWin {
  w_handle : Z;
  w_title : string;
  w_enabled : bool;
  w_rect : Z * Z * Z * Z
}.

Definition t : Type := list win.

Definition lookup (h : Z) (d : t) : option win :=
  find (fun w => Z.eqb (w_handle w) h) d.

Definition free_handle (d : t) : Z :=
  match find (fun h => negb (existsb (fun w => Z.eqb (w_handle w) h) d))
             (map Z.of_nat (seq 1 (S (List.length d)))) with
  | Some h => h
  | None => 1%Z
  end.

Definition open (title : string) (d : t) : t :=
  d ++ [mkWin (free_handle d) title true (0, 0, 800, 600)%Z].

Definition destroy (h : Z) (d : t) : t :=
  filter (fun w => negb (Z.eqb (w_handle w) h)) d.

Definition disable (h : Z) (d : t) : t :=
  map (fun w => if Z.eqb (w_handle w) h
                then mkWin (w_handle w) (w_title w) false (w_rect w) else w) d.

Definition rename (h : Z) (title : string) (d : t) : t :=
  map (fun w => if Z.eqb (w_handle w) h
                then mkWin (w_handle w) title (w_enabled w) (w_rect w) else w) d.

Definition place (h x y wd ht : Z) (d : t) : t :=
  map (fun w => if Z.eqb (w_handle w) h
                then mkWin (w_handle w) (w_title w) (w_enabled w) (x, y, x + wd, y + ht)%Z
                else w) d.

#[global] Instance user32 : User32 t := {
  FindWindowExW _ _ _ title d :=
    (match find (fun w => String.eqb (w_title w) title) d with
     | Some w => w_handle w
     | None => 0%Z
     end, d);
  IsWindowEnabled h d :=
    (match lookup h d with Some w => w_enabled w | None => false end, d);
  SendMessageW h msg _ _ d :=
    (0%Z, if Z.eqb msg WM_CLOSE then destroy h d else d);
  MoveWindow h x y wd ht _ d :=
    (match lookup h d with Some _ => true | None => false end, place h x y wd ht d);
  GetWindowRect h d :=
    (match lookup h d with Some w => w_rect w | None => (0, 0, 0, 0)%Z end, d);
  GetWindowTextW h d :=
    (match lookup h d with Some w => w_title w | None => "" end, d)
}.

#[global] Instance runtime : Runtime t := {
  time_sleep _ d := d;
  wiggle_begin timeout _ _ := Z.to_nat timeout;
  wiggle_next _ d := d;
  Popen_wait args d :=
    match args with
    | [_; target] =>
        open (if String.eqb target "shell:RecycleBinFolder" then "ごみ箱" else target) d
    | _ => d
    end;
  CPath_validate path _ := if String.eqb path "" then None else Some path;
  Path_name path := path
}.

End Desktop.

(** ** Scenarios on the small desktop *)

Module Scenario.

Definition span : Q := 5 # 100.

(** Two windows, "Memo" with handle 1 and "Calc" with handle 2. *)
Definition desk : Desktop.t := Desktop.open "Calc" (Desktop.open "Memo" []).

(** "Memo" is tracked by a plain [Window], object 0. *)
Definition memo_tracked : State Desktop.t :=
  exec (CallWindow "Memo" 3 span) (initial desk).

(** Both are tracked: object 0 owns handle 1, object 1 owns handle 2. *)
Definition tracked : State Desktop.t :=
  exec_all [CallWindow "Memo" 3 span; CallWindow "Calc" 3 span] (initial desk).

(** Then "Memo" is closed by its user: the entry of handle 1 is stale. *)
Definition memo_gone : State Desktop.t :=
  exec (CallOutside (Desktop.destroy 1)) tracked.

(** The state after object 0 has been asked whether it is alive. *)
Definition memo_checked : State Desktop.t := run (truth 0%nat) memo_gone.

(** Then "Calc" stops answering as well: both entries are stale. *)
Definition both_gone : State Desktop.t :=
  exec (CallOutside (Desktop.disable 2)) memo_gone.

(** Object 0 tracks "Calc" under handle 1 and is closed; the OS gives the
    value 1 to a new window "Memo", which object 1 then acquires. *)
Definition closed_once : State Desktop.t :=
  exec_all [CallWindow "Calc" 3 span; CallClose 0%nat]
           (initial (Desktop.open "Calc" [])).

Definition reused : State Desktop.t :=
  exec_all [CallOutside (Desktop.open "Memo"); CallWindow "Memo" 3 span] closed_once.

(** A file browser on "docs" that must stay there (object 0, handle 1). *)
Definition browsing : State Desktop.t :=
  exec (CallExplorer "docs" false 3 span None) (initial []).

End Scenario.

(** * Properties *)

(** ** Lists and dictionaries *)

(** [subseq l l']: [l] is [l'] with some items left out. *)
Inductive subseq {A : Type} : list A -> list A -> Prop :=
| subseq_nil : subseq [] []
| subseq_skip (x : A) (l l' : list A) : subseq l l' -> subseq l (x :: l')
| subseq_keep (x : A) (l l' : list A) : subseq l l' -> subseq (x :: l) (x :: l').

Section ListFacts.
Context {A : Type}.

Lemma subseq_refl (l : list A) : subseq l l.
Proof. induction l; constructor; assumption. Qed.

Lemma subseq_trans (l1 l2 l3 : list A) :
  subseq l1 l2 -> subseq l2 l3 -> subseq l1 l3.
Proof.
  intros H12 H23. revert l1 H12.
  induction H23 as [| x l2 l3 H IH | x l2 l3 H IH]; intros l1 H12.
  - assumption.
  - apply subseq_skip. apply IH. assumption.
  - inversion H12; subst.
    + apply subseq_skip. apply IH. assumption.
    + apply subseq_keep. apply IH. assumption.
Qed.

Lemma subseq_In (l l' : list A) (x : A) : subseq l l' -> In x l -> In x l'.
Proof.
  induction 1 as [| y l l' H IH | y l l' H IH]; simpl; intros Hin.
  - assumption.
  - right. apply IH. assumption.
  - destruct Hin as [-> | Hin]; [left; reflexivity | right; apply IH; assumption].
Qed.

Lemma subseq_length (l l' : list A) : subseq l l' -> (List.length l <= List.length l')%nat.
Proof. induction 1; simpl; lia. Qed.

Lemma subseq_same_length (l l' : list A) :
  subseq l l' -> List.length l = List.length l' -> l = l'.
Proof.
  induction 1 as [| y l l' H IH | y l l' H IH]; simpl; intros Hlen.
  - reflexivity.
  - apply subseq_length in H. lia.
  - f_equal. apply IH. lia.
Qed.

Lemma subseq_NoDup (l l' : list A) : subseq l l' -> NoDup l' -> NoDup l.
Proof.
  induction 1 as [| y l l' H IH | y l l' H IH]; intros Hnd.
  - constructor.
  - inversion Hnd; subst. apply IH. assumption.
  - inversion Hnd as [| ? ? Hnotin Hnd']; subst. constructor.
    + intros Hin. apply Hnotin. eapply subseq_In; eassumption.
    + apply IH. assumption.
Qed.

Lemma list_set_length (l : list A) (i : nat) (a : A) :
  List.length (list_set l i a) = List.length l.
Proof.
  revert i. induction l as [| x l IH]; intros [| i]; simpl; try reflexivity.
  rewrite IH. reflexivity.
Qed.

Lemma nth_error_list_set_same (l : list A) (i : nat) (a : A) :
  (i < List.length l)%nat -> nth_error (list_set l i a) i = Some a.
Proof.
  revert i. induction l as [| x l IH]; intros [| i]; simpl; intros Hlt;
    try lia; try reflexivity.
  apply IH. lia.
Qed.

Lemma nth_error_list_set_other (l : list A) (i j : nat) (a : A) :
  i <> j -> nth_error (list_set l i a) j = nth_error l j.
Proof.
  revert i j. induction l as [| x l IH]; intros [| i] [| j] Hne; simpl;
    try reflexivity; try congruence.
  apply IH. congruence.
Qed.

End ListFacts.

Lemma subseq_map {A B : Type} (f : A -> B) (l l' : list A) :
  subseq l l' -> subseq (map f l) (map f l').
Proof. induction 1; simpl; constructor; assumption. Qed.

Section DictFacts.
Context {V : Type}.
Implicit Types (d : Dict.t V) (k : Z) (v : V).

Lemma mem_In_keys k d : Dict.mem k d = true <-> In k (Dict.keys d).
Proof.
  induction d as [| [k' v'] d IH]; simpl.
  - split; [discriminate | tauto].
  - destruct (Z.eqb_spec k k') as [-> | Hne].
    + split; auto.
    + rewrite IH. split; [auto | intros [Heq | Hin]; [congruence | assumption]].
Qed.

Lemma mem_false_keys k d : Dict.mem k d = false <-> ~ In k (Dict.keys d).
Proof.
  rewrite <- mem_In_keys. destruct (Dict.mem k d); split; congruence.
Qed.

Lemma In_mem k v d : In (k, v) d -> Dict.mem k d = true.
Proof.
  intros Hin. apply mem_In_keys. unfold Dict.keys.
  change k with (fst (k, v)). apply in_map. assumption.
Qed.

Lemma subseq_del k d : subseq (Dict.del k d) d.
Proof.
  induction d as [| [k' v'] d IH]; simpl.
  - constructor.
  - destruct (Z.eqb k k'); constructor; assumption.
Qed.

Lemma mem_del_same k d : Dict.mem k (Dict.del k d) = false.
Proof.
  induction d as [| [k' v'] d IH]; simpl.
  - reflexivity.
  - destruct (Z.eqb k k') eqn:E; simpl; [assumption | rewrite E; assumption].
Qed.

Lemma del_absent k d : Dict.mem k d = false -> Dict.del k d = d.
Proof.
  induction d as [| [k' v'] d IH]; simpl.
  - reflexivity.
  - destruct (Z.eqb k k'); [discriminate | intros H; rewrite IH by assumption; reflexivity].
Qed.

Lemma del_length_lt k d :
  Dict.mem k d = true -> (List.length (Dict.del k d) < List.length d)%nat.
Proof.
  induction d as [| [k' v'] d IH]; simpl.
  - discriminate.
  - destruct (Z.eqb k k').
    + intros _. pose proof (subseq_length _ _ (subseq_del k d)). lia.
    + intros H. simpl. apply IH in H. lia.
Qed.

Lemma set_absent k v d : Dict.mem k d = false -> Dict.set k v d = d ++ [(k, v)].
Proof.
  induction d as [| [k' v'] d IH]; simpl.
  - reflexivity.
  - destruct (Z.eqb k k'); [discriminate | intros H; rewrite IH by assumption; reflexivity].
Qed.

Lemma subseq_mem k d d' : subseq d' d -> Dict.mem k d' = true -> Dict.mem k d = true.
Proof.
  intros Hsub. rewrite !mem_In_keys. apply subseq_In.
  apply subseq_map. assumption.
Qed.

Lemma subseq_mem_false k d d' : subseq d' d -> Dict.mem k d = false -> Dict.mem k d' = false.
Proof.
  intros Hsub Hf. destruct (Dict.mem k d') eqn:E; [| reflexivity].
  rewrite (subseq_mem k d d' Hsub E) in Hf. discriminate.
Qed.

Lemma NoDup_keys_unique k v1 v2 d :
  NoDup (Dict.keys d) -> In (k, v1) d -> In (k, v2) d -> v1 = v2.
Proof.
  induction d as [| [k' v'] d IH]; simpl; intros Hnd H1 H2.
  - contradiction.
  - inversion Hnd as [| ? ? Hnotin Hnd']; subst.
    destruct H1 as [E1 | H1], H2 as [E2 | H2].
    + congruence.
    + inversion E1; subst. exfalso. apply Hnotin.
      apply mem_In_keys. eapply In_mem. eassumption.
    + inversion E2; subst. exfalso. apply Hnotin.
      apply mem_In_keys. eapply In_mem. eassumption.
    + apply IH; assumption.
Qed.

End DictFacts.

(** ** Computations *)

Section MonadFacts.
Context {W : Type}.

Lemma bind_Ok {A B} (m : M W A) (k : A -> M W B) st a st1 :
  m st = (Ok a, st1) -> bind m k st = k a st1.
Proof. intros H. unfold bind. rewrite H. reflexivity. Qed.

Lemma bind_Raise {A B} (m : M W A) (k : A -> M W B) st e st1 :
  m st = (Raise e, st1) -> bind m k st = (Raise e, st1).
Proof. intros H. unfold bind. rewrite H. reflexivity. Qed.

Lemma bind_inv {A B} (m : M W A) (k : A -> M W B) st r st' :
  bind m k st = (r, st') ->
  (exists a st1, m st = (Ok a, st1) /\ k a st1 = (r, st')) \/
  (exists e, m st = (Raise e, st') /\ r = Raise e).
Proof.
  unfold bind. destruct (m st) as [[a | e] st1]; intros H.
  - left. exists a, st1. split; [reflexivity | assumption].
  - right. inversion H; subst. exists e. split; reflexivity.
Qed.

(** [keeps Rel m]: whatever [m] returns or raises, the state it leaves is
    related to the state it started in. *)
Definition keeps (Rel : State W -> State W -> Prop) {A} (m : M W A) : Prop :=
  forall st r st', m st = (r, st') -> Rel st st'.

Section Keeps.
Variable Rel : State W -> State W -> Prop.
Hypothesis Rel_refl : forall st, Rel st st.
Hypothesis Rel_trans : forall s1 s2 s3, Rel s1 s2 -> Rel s2 s3 -> Rel s1 s3.

Lemma keeps_ret {A} (a : A) : keeps Rel (ret a).
Proof. intros st r st' H. inversion H; subst. apply Rel_refl. Qed.

Lemma keeps_raise {A} (e : exn) : keeps Rel (@raise W A e).
Proof. intros st r st' H. inversion H; subst. apply Rel_refl. Qed.

Lemma keeps_bind {A B} (m : M W A) (k : A -> M W B) :
  keeps Rel m -> (forall a, keeps Rel (k a)) -> keeps Rel (bind m k).
Proof.
  intros Hm Hk st r st' H. apply bind_inv in H.
  destruct H as [(a & st1 & H1 & H2) | (e & H1 & _)].
  - eapply Rel_trans; [eapply Hm | eapply Hk]; eassumption.
  - eapply Hm; eassumption.
Qed.

Lemma keeps_getattr {A} name (proj : obj -> option A) self :
  keeps Rel (getattr name proj self).
Proof.
  intros st r st' H. unfold getattr in H.
  destruct (nth_error (heap st) self) as [o |]; [destruct (proj o) |];
    inversion H; subst; apply Rel_refl.
Qed.

Lemma keeps_contains h : keeps Rel (contains h).
Proof. intros st r st' H. inversion H; subst. apply Rel_refl. Qed.

Lemma keeps_get_handlers : keeps Rel get_handlers.
Proof. intros st r st' H. inversion H; subst. apply Rel_refl. Qed.

End Keeps.

Lemma keeps_weaken (Rel Rel' : State W -> State W -> Prop) {A} (m : M W A) :
  (forall s s', Rel s s' -> Rel' s s') -> keeps Rel m -> keeps Rel' m.
Proof. intros Himp Hm st r st' H. apply Himp. eapply Hm. eassumption. Qed.

(** Events of a liveness check: the is-enabled and the get-text query. *)
Definition is_query (e : event) : bool :=
  match e with
  | EvIsWindowEnabled _ | EvGetWindowTextW _ => true
  | _ => false
  end.

(** [observes st st']: registry and objects are the same; the outside world
    was only asked liveness queries. *)
Definition observes (st st' : State W) : Prop :=
  handlers st' = handlers st /\ heap st' = heap st /\
  exists evs, trace st' = trace st ++ evs /\ forallb is_query evs = true.

(** [shrinks st st']: the objects are the same and the registry lost items
    at most. *)
Definition shrinks (st st' : State W) : Prop :=
  heap st' = heap st /\ subseq (handlers st') (handlers st).

(** [grows n st st']: no object below [n] was changed, and every item the
    registry gained belongs to an object from [n] on. *)
Definition grows (n : nat) (st st' : State W) : Prop :=
  (List.length (heap st) <= List.length (heap st'))%nat /\
  (forall o, (o < n)%nat -> nth_error (heap st') o = nth_error (heap st) o) /\
  (forall h o, In (h, o) (handlers st') -> In (h, o) (handlers st) \/ (n <= o)%nat).

Lemma observes_refl st : observes st st.
Proof.
  repeat split. exists []. rewrite app_nil_r. split; reflexivity.
Qed.

Lemma observes_trans s1 s2 s3 : observes s1 s2 -> observes s2 s3 -> observes s1 s3.
Proof.
  intros (H1 & H2 & evs & H3 & H4) (K1 & K2 & evs' & K3 & K4).
  split; [congruence | split; [congruence |]].
  exists (evs ++ evs'). rewrite K3, H3, app_assoc, forallb_app, H4, K4.
  split; reflexivity.
Qed.

Lemma shrinks_refl st : shrinks st st.
Proof. split; [reflexivity | apply subseq_refl]. Qed.

Lemma shrinks_trans s1 s2 s3 : shrinks s1 s2 -> shrinks s2 s3 -> shrinks s1 s3.
Proof.
  intros (H1 & H2) (K1 & K2). split; [congruence |].
  eapply subseq_trans; eassumption.
Qed.

Lemma grows_refl n st : grows n st st.
Proof. repeat split; auto. Qed.

Lemma grows_trans n s1 s2 s3 : grows n s1 s2 -> grows n s2 s3 -> grows n s1 s3.
Proof.
  intros (H1 & H2 & H3) (K1 & K2 & K3). split; [lia | split].
  - intros o Ho. rewrite K2, H2 by assumption. reflexivity.
  - intros h o Hin. apply K3 in Hin. destruct Hin as [Hin | Hle]; [| right; assumption].
    apply H3. assumption.
Qed.

Lemma observes_shrinks s s' : observes s s' -> shrinks s s'.
Proof.
  intros (H1 & H2 & _). split; [assumption |]. rewrite H1. apply subseq_refl.
Qed.

Lemma shrinks_grows n s s' : shrinks s s' -> grows n s s'.
Proof.
  intros (H1 & H2). split; [rewrite H1; lia | split].
  - intros o _. rewrite H1. reflexivity.
  - intros h o Hin. left. eapply subseq_In; eassumption.
Qed.

End MonadFacts.

Create HintDb frames.

#[local] Hint Resolve observes_refl observes_trans shrinks_refl shrinks_trans
  grows_refl grows_trans : frames.

(** Walks through a computation built from [bind], branches and the
    primitives that leave the state alone. *)
Ltac keeps_walk :=
  repeat first
    [ assumption
    | apply keeps_bind; [solve [eauto with frames] | | intro]
    | apply keeps_ret; solve [eauto with frames]
    | apply keeps_raise; solve [eauto with frames]
    | apply keeps_getattr; solve [eauto with frames]
    | apply keeps_contains; solve [eauto with frames]
    | apply keeps_get_handlers; solve [eauto with frames]
    | match goal with
      | |- keeps _ (if ?b then _ else _) => destruct b
      | |- keeps _ (match ?x with _ => _ end) => destruct x
      | |- keeps _ (let (_, _) := ?x in _) => destruct x
      end
    | solve [eauto with frames] ].

(** ** What the methods leave alone *)

Section Frames.
Context {W : Type} {U : User32 W} {R : Runtime W}.

Lemma extern_query_observes {A} (e : event) (f : W -> A * W) :
  is_query e = true -> keeps observes (extern e f).
Proof.
  intros Hq st r st' H. unfold extern in H.
  destruct (f (world st)) as [a w]. inversion H; subst; simpl.
  repeat split. exists [e]. simpl. rewrite Hq. split; reflexivity.
Qed.

Lemma extern_shrinks {A} (e : event) (f : W -> A * W) : keeps shrinks (extern e f).
Proof.
  intros st r st' H. unfold extern in H.
  destruct (f (world st)) as [a w]. inversion H; subst.
  split; simpl; [reflexivity | apply subseq_refl].
Qed.

Lemma extern__shrinks (e : event) (f : W -> W) : keeps shrinks (extern_ e f).
Proof. apply extern_shrinks. Qed.

Lemma log_shrinks (e : event) : keeps (@shrinks W) (log e).
Proof.
  intros st r st' H. inversion H; subst.
  split; simpl; [reflexivity | apply subseq_refl].
Qed.

Lemma delitem_shrinks (h : Z) : keeps (@shrinks W) (delitem h).
Proof.
  intros st r st' H. inversion H; subst.
  split; simpl; [reflexivity | apply subseq_del].
Qed.

Lemma Window_bool_observes self : keeps observes (Window_bool self).
Proof.
  unfold Window_bool, handler. keeps_walk.
  apply extern_query_observes. reflexivity.
Qed.

Lemma truth_observes self : keeps observes (truth self).
Proof.
  unfold truth, class_of. apply keeps_bind; [eauto with frames | | intros c].
  - apply keeps_getattr. eauto with frames.
  - pose proof (Window_bool_observes self) as HW.
    destruct c; [assumption | |].
    + unfold RecycleBinFolder_bool, RecycleBinFolder_first_title, handler.
      keeps_walk; apply extern_query_observes; reflexivity.
    + unfold Explorer_bool, Explorer_first_title, allow_chdir, handler.
      keeps_walk; apply extern_query_observes; reflexivity.
Qed.

Lemma truth_shrinks self : keeps shrinks (truth self).
Proof.
  eapply keeps_weaken; [apply observes_shrinks | apply truth_observes].
Qed.

Lemma close_shrinks self : keeps shrinks (close self).
Proof.
  unfold close, handler. keeps_walk;
    first [apply extern__shrinks | apply extern_shrinks | apply delitem_shrinks].
Qed.

Lemma rect_shrinks self : keeps shrinks (rect self).
Proof. unfold rect, handler. keeps_walk. apply extern_shrinks. Qed.

Lemma title_shrinks self : keeps shrinks (title self).
Proof. unfold title, handler. keeps_walk. apply extern_shrinks. Qed.

#[local] Hint Resolve truth_shrinks close_shrinks rect_shrinks title_shrinks
  extern_shrinks extern__shrinks log_shrinks delitem_shrinks : frames.

Lemma for_values_shrinks (body : objid -> M W unit) used pos remaining :
  (forall wd, keeps shrinks (body wd)) ->
  keeps shrinks (for_values body used pos remaining).
Proof.
  intros Hbody. revert pos.
  induction remaining as [| n IH]; intros pos; simpl; keeps_walk.
Qed.

Lemma refresh_shrinks : keeps shrinks (@refresh W U R).
Proof.
  unfold refresh. keeps_walk. apply for_values_shrinks. intros wd.
  unfold refresh_one. keeps_walk.
Qed.

Lemma size_shrinks self : keeps shrinks (size self).
Proof. unfold size. keeps_walk. Qed.

#[local] Hint Resolve refresh_shrinks size_shrinks : frames.

Lemma move_window_shrinks self x y w h : keeps shrinks (move_window self x y w h).
Proof. unfold move_window, handler. keeps_walk. Qed.

Lemma set_position_shrinks self x y : keeps shrinks (set_position self x y).
Proof. unfold set_position, handler. keeps_walk. Qed.

Lemma set_size_shrinks self w h : keeps shrinks (set_size self w h).
Proof. unfold set_size, handler. keeps_walk. Qed.

Lemma join_loop_shrinks fuel self span : keeps shrinks (join_loop fuel self span).
Proof. induction fuel as [| n IH]; simpl; keeps_walk. Qed.

Lemma join_shrinks fuel self span : keeps shrinks (join fuel self span).
Proof.
  unfold join. pose proof (join_loop_shrinks fuel self span). keeps_walk.
Qed.

(** Every call that is not a constructor call leaves the objects as they
    are and adds nothing to the registry. *)
Lemma exec_method_shrinks (c : call W) (st : State W) :
  is_method c = true -> shrinks st (exec c st).
Proof.
  destruct c; simpl; try discriminate; intros _; unfold run;
    try match goal with
        | |- shrinks ?s (snd (?m ?s)) =>
            destruct (m s) as [r s'] eqn:E; simpl
        end.
  - eapply truth_shrinks; eassumption.
  - eapply close_shrinks; eassumption.
  - eapply join_shrinks; eassumption.
  - eapply move_window_shrinks; eassumption.
  - eapply refresh_shrinks; eassumption.
  - eapply set_position_shrinks; eassumption.
  - eapply set_size_shrinks; eassumption.
  - eapply rect_shrinks; eassumption.
  - eapply size_shrinks; eassumption.
  - eapply title_shrinks; eassumption.
  - split; simpl; [reflexivity | apply subseq_refl].
Qed.

End Frames.

(** ** Acquisition *)

Section Acquisition.
Context {W : Type} {U : User32 W} {R : Runtime W}.

#[local] Hint Resolve truth_shrinks close_shrinks rect_shrinks title_shrinks
  extern_shrinks extern__shrinks log_shrinks delitem_shrinks
  refresh_shrinks : frames.

(** The heap after [self.__hdlr = h]. *)
Definition heap_with_hdlr (hp : list obj) (self : objid) (h : Z) : list obj :=
  match nth_error hp self with
  | Some o => list_set hp self (set_hdlr h o)
  | None => hp
  end.

(** How an acquisition that succeeds ends, in any state: the registry of
    [st'] is [Rg ++ [(h, self)]], where [Rg] is the registry at the moment
    of insertion, and the handle is stored on [self]. *)
Definition claimed (self : objid) (st st' : State W) : Prop :=
  exists Rg h,
    subseq Rg (handlers st) /\ h <> 0%Z /\ Dict.mem h Rg = false /\
    handlers st' = Rg ++ [(h, self)] /\
    heap st' = heap_with_hdlr (heap st) self h.

Lemma claimed_after_shrinks self s1 s2 s3 :
  shrinks s1 s2 -> claimed self s2 s3 -> claimed self s1 s3.
Proof.
  intros (Hh & Hs) (Rg & h & H1 & H2 & H3 & H4 & H5).
  exists Rg, h. repeat split; try assumption.
  - eapply subseq_trans; eassumption.
  - rewrite H5, Hh. reflexivity.
Qed.

Lemma attempt_cases self title st r st' :
  attempt self title st = (r, st') ->
  (r <> Ok LBreak /\ shrinks st st') \/ (r = Ok LBreak /\ claimed self st st').
Proof.
  unfold attempt. intros H.
  apply bind_inv in H. destruct H as [(hdlr & s1 & H1 & H) | (e & H1 & ->)].
  2:{ left. split; [discriminate | eapply extern_shrinks; eassumption]. }
  assert (S1 : shrinks st s1) by (eapply extern_shrinks; eassumption).
  destruct (Z.eqb_spec hdlr 0) as [-> | Hnz]; simpl in H.
  { inversion H; subst. left. split; [discriminate | assumption]. }
  apply bind_inv in H. destruct H as [(present & s2 & H2 & H) | (e & H2 & ->)].
  2:{ inversion H2. }
  inversion H2; subst s2 present; clear H2.
  apply bind_inv in H. destruct H as [(skip & s3 & H3 & H) | (e & H3 & ->)].
  - assert (S3 : shrinks s1 s3 /\ (skip = false -> Dict.mem hdlr (handlers s3) = false)).
    { destruct (Dict.mem hdlr (handlers s1)) eqn:Hm.
      - apply bind_inv in H3.
        destruct H3 as [([] & s2 & H2 & H3) | (e & H2 & Hr)]; [| discriminate].
        inversion H3; subst. split; [| auto].
        eapply refresh_shrinks; eassumption.
      - inversion H3; subst. split; [apply shrinks_refl | auto]. }
    destruct S3 as [S3 Habs].
    destruct skip.
    + inversion H; subst. left. split; [discriminate |].
      eapply shrinks_trans; eassumption.
    + right. specialize (Habs eq_refl).
      unfold bind, setitem, setattr, ret in H; simpl in H.
      assert (Hst' : r = Ok LBreak /\
                handlers st' = handlers s3 ++ [(hdlr, self)] /\
                heap st' = heap_with_hdlr (heap s3) self hdlr).
      { unfold heap_with_hdlr.
        destruct (nth_error (heap s3) self) as [o |]; inversion H; subst; simpl;
          rewrite set_absent by assumption; auto. }
      destruct Hst' as (-> & Hh & Hp). split; [reflexivity |].
      eapply claimed_after_shrinks; [eapply shrinks_trans; eassumption |].
      exists (handlers s3), hdlr. repeat split; try assumption. apply subseq_refl.
  - left. split; [discriminate |].
    destruct (Dict.mem hdlr (handlers s1)).
    + apply bind_inv in H3.
      destruct H3 as [([] & s2 & H2 & H3) | (e' & H2 & Hr)].
      * inversion H3.
      * eapply shrinks_trans; [eassumption |]. eapply refresh_shrinks; eassumption.
    + inversion H3.
Qed.

Lemma poll_cases self title span points st r st' :
  poll self title span points st = (r, st') ->
  (exists e, r = Raise e /\ shrinks st st') \/ (r = Ok tt /\ claimed self st st').
Proof.
  revert st. induction points as [| n IH]; intros st H; simpl in H.
  - inversion H; subst. left. eexists. split; [reflexivity | apply shrinks_refl].
  - apply bind_inv in H. destruct H as [([] & s1 & H1 & H) | (e & H1 & ->)].
    2:{ inversion H1. }
    assert (S1 : shrinks st s1) by (eapply extern__shrinks; eassumption).
    apply bind_inv in H. destruct H as [(c & s2 & H2 & H) | (e & H2 & ->)].
    + apply attempt_cases in H2. destruct H2 as [(Hc & S2) | (Hc & Hcl)].
      2:{ inversion Hc; subst c. inversion H; subst. right. split; [reflexivity |].
          eapply claimed_after_shrinks; eassumption. }
      * destruct c; [| congruence].
        apply IH in H. destruct H as [(e & -> & S3) | (-> & Hcl)].
        -- left. exists e. split; [reflexivity |].
           eapply shrinks_trans; [| eassumption]. eapply shrinks_trans; eassumption.
        -- right. split; [reflexivity |].
           eapply claimed_after_shrinks; [| eassumption].
           eapply shrinks_trans; eassumption.
    + apply attempt_cases in H2. destruct H2 as [(_ & S2) | (Hc & _)]; [| discriminate].
      left. exists e. split; [reflexivity |]. eapply shrinks_trans; eassumption.
Qed.

Lemma Window_init_cases self title ts ss st r st' :
  Window_init self title ts ss st = (r, st') ->
  (exists e, r = Raise e /\ shrinks st st') \/ (r = Ok tt /\ claimed self st st').
Proof.
  unfold Window_init, bind. apply poll_cases.
Qed.

End Acquisition.

(** ** Polling that finds nothing to claim *)

Section Exhausted.
Context {W : Type} {U : User32 W} {R : Runtime W}.

(** What [FindWindowExW] answers for [title] in [st], and the state after
    the call. *)
Definition found (title : string) (st : State W) : Z :=
  fst (FindWindowExW None None None title (world st)).

Definition after_find (title : string) (st : State W) : State W :=
  mkState (handlers st) (heap st)
          (snd (FindWindowExW None None None title (world st)))
          (trace st ++ [EvFindWindowExW title]).

(** The state when the timer hands out its next control point. *)
Definition ticked (span : Q) (st : State W) : State W :=
  mkState (handlers st) (heap st) (wiggle_next span (world st)) (trace st ++ [EvTimer]).

(** One attempt that claims nothing: no window has the title, or the handle
    found is registered, reconciliation returns, and the handle is
    registered still. *)
Inductive no_match (title : string) : State W -> State W -> Prop :=
| no_window (st : State W) :
    found title st = 0%Z ->
    no_match title st (after_find title st)
| owned_elsewhere (st st' : State W) :
    found title st <> 0%Z ->
    Dict.mem (found title st) (handlers st) = true ->
    refresh (after_find title st) = (Ok tt, st') ->
    Dict.mem (found title st) (handlers st') = true ->
    no_match title st st'.

(** [exhausted title span n st st']: the timer hands out [n] control points,
    and the attempt at each of them claims nothing. *)
Inductive exhausted (title : string) (span : Q) : nat -> State W -> State W -> Prop :=
| exhausted_O (st : State W) : exhausted title span 0 st st
| exhausted_S (n : nat) (st s1 st' : State W) :
    no_match title (ticked span st) s1 ->
    exhausted title span n s1 st' ->
    exhausted title span (S n) st st'.

Lemma no_match_attempt self title st st' :
  no_match title st st' -> attempt self title st = (Ok LContinue, st').
Proof.
  intros H. unfold attempt, bind at 1, extern at 1.
  destruct H as [st Hf | st st' Hf Hm Hr Hm']; unfold found, after_find in *;
    destruct (FindWindowExW None None None title (world st)) as [hdlr w]; simpl in *.
  - subst hdlr. reflexivity.
  - destruct (Z.eqb_spec hdlr 0) as [-> | _]; [congruence |]. simpl.
    unfold bind at 1, contains at 1. simpl. rewrite Hm.
    unfold bind at 1. unfold bind at 1. rewrite Hr.
    unfold contains. rewrite Hm'. reflexivity.
Qed.

Lemma exhausted_poll self title span n st st' :
  exhausted title span n st st' ->
  poll self title span n st = (Raise (TimeoutError (timeout_msg title)), st').
Proof.
  induction 1 as [st | n st s1 st' Hnm Hex IH]; simpl.
  - reflexivity.
  - unfold bind at 1, extern_, extern. simpl. fold (ticked span st).
    rewrite (bind_Ok _ _ _ _ _ (no_match_attempt self title _ _ Hnm)).
    assumption.
Qed.

End Exhausted.

(** ** The registry invariant *)

Section MoreListFacts.
Context {A : Type}.

Lemma list_set_beyond (l : list A) (i : nat) (a : A) :
  nth_error l i = None -> list_set l i a = l.
Proof.
  revert i. induction l as [| x l IH]; intros [| i]; simpl; intros H;
    try reflexivity; try discriminate.
  rewrite IH by assumption. reflexivity.
Qed.

Lemma list_set_same (l : list A) (i : nat) (a : A) :
  nth_error l i = Some a -> list_set l i a = l.
Proof.
  revert i. induction l as [| x l IH]; intros [| i]; simpl; intros H;
    try reflexivity; try discriminate.
  - inversion H. reflexivity.
  - rewrite IH by assumption. reflexivity.
Qed.

Lemma map_list_set {B : Type} (f : A -> B) (l : list A) (i : nat) (a : A) :
  map f (list_set l i a) = list_set (map f l) i (f a).
Proof.
  revert i. induction l as [| x l IH]; intros [| i]; simpl; try reflexivity.
  rewrite IH. reflexivity.
Qed.

Lemma NoDup_snoc (l : list A) (x : A) : NoDup l -> ~ In x l -> NoDup (l ++ [x]).
Proof.
  intros Hl Hx. apply NoDup_app.
  - assumption.
  - constructor; [simpl; tauto | constructor].
  - intros a Ha [Heq | []]. subst a. contradiction.
Qed.

End MoreListFacts.

Section Registry.
Context {W : Type} {U : User32 W} {R : Runtime W}.

(** The handle attribute of every object, by identity. *)
Definition hdlrs (st : State W) : list (option Z) := map _Window__hdlr (heap st).

Lemma owns_hdlrs st o h : owns st o h <-> nth_error (hdlrs st) o = Some (Some h).
Proof.
  unfold owns, hdlrs. rewrite nth_error_map. split.
  - intros (ob & -> & Hh). simpl. rewrite Hh. reflexivity.
  - destruct (nth_error (heap st) o) as [ob |]; simpl; intros H; inversion H.
    exists ob. split; congruence.
Qed.

(** [decorates]: registry and handle attributes are the same. *)
Definition decorates (st st' : State W) : Prop :=
  handlers st' = handlers st /\ hdlrs st' = hdlrs st.

Definition shrinks_h (st st' : State W) : Prop :=
  hdlrs st' = hdlrs st /\ subseq (handlers st') (handlers st).

Definition claimed_h (self : objid) (st st' : State W) : Prop :=
  exists Rg h,
    subseq Rg (handlers st) /\ h <> 0%Z /\ Dict.mem h Rg = false /\
    handlers st' = Rg ++ [(h, self)] /\
    hdlrs st' = list_set (hdlrs st) self (Some h).

(** What a constructor does to registry and handle attributes. *)
Definition outcome (self : objid) (st st' : State W) : Prop :=
  shrinks_h st st' \/ claimed_h self st st'.

Lemma decorates_refl st : decorates st st.
Proof. split; reflexivity. Qed.

Lemma decorates_trans s1 s2 s3 : decorates s1 s2 -> decorates s2 s3 -> decorates s1 s3.
Proof. intros (H1 & H2) (K1 & K2). split; congruence. Qed.

Lemma shrinks_shrinks_h st st' : shrinks st st' -> shrinks_h st st'.
Proof. intros (H1 & H2). split; [unfold hdlrs; rewrite H1; reflexivity | assumption]. Qed.

Lemma claimed_claimed_h self st st' : claimed self st st' -> claimed_h self st st'.
Proof.
  intros (Rg & h & H1 & H2 & H3 & H4 & H5). exists Rg, h.
  repeat split; try assumption.
  unfold hdlrs. rewrite H5. unfold heap_with_hdlr.
  destruct (nth_error (heap st) self) as [o |] eqn:E.
  - rewrite map_list_set. reflexivity.
  - rewrite list_set_beyond; [reflexivity |].
    rewrite nth_error_map, E. reflexivity.
Qed.

Lemma outcome_pre self s1 s2 s3 : decorates s1 s2 -> outcome self s2 s3 -> outcome self s1 s3.
Proof.
  intros (D1 & D2) [(H1 & H2) | (Rg & h & H1 & H2 & H3 & H4 & H5)].
  - left. split; [congruence | rewrite <- D1; assumption].
  - right. exists Rg, h. rewrite <- D1, <- D2. repeat split; assumption.
Qed.

Lemma outcome_post self s1 s2 s3 : outcome self s1 s2 -> decorates s2 s3 -> outcome self s1 s3.
Proof.
  intros [(H1 & H2) | (Rg & h & H1 & H2 & H3 & H4 & H5)] (D1 & D2).
  - left. split; [congruence | rewrite D1; assumption].
  - right. exists Rg, h. rewrite D1, D2. repeat split; assumption.
Qed.

Lemma decorates_outcome self s1 s2 : decorates s1 s2 -> outcome self s1 s2.
Proof.
  intros (D1 & D2). left. split; [assumption | rewrite D1; apply subseq_refl].
Qed.

Lemma extern_decorates {A} (e : event) (f : W -> A * W) : keeps decorates (extern e f).
Proof.
  intros st r st' H. unfold extern in H.
  destruct (f (world st)) as [a w]. inversion H; subst. split; reflexivity.
Qed.

Lemma extern__decorates (e : event) (f : W -> W) : keeps decorates (extern_ e f).
Proof. apply extern_decorates. Qed.

Lemma setattr_decorates (upd : obj -> obj) self :
  (forall o, _Window__hdlr (upd o) = _Window__hdlr o) ->
  keeps decorates (setattr upd self).
Proof.
  intros Hupd st r st' H. unfold setattr in H.
  destruct (nth_error (heap st) self) as [o |] eqn:E; inversion H; subst;
    split; try reflexivity.
  unfold hdlrs; simpl. rewrite map_list_set, Hupd.
  apply list_set_same. rewrite nth_error_map, E. reflexivity.
Qed.

Lemma Window_init_outcome self title ts ss st r st' :
  Window_init self title ts ss st = (r, st') -> outcome self st st'.
Proof.
  intros H. apply Window_init_cases in H.
  destruct H as [(e & _ & H) | (_ & H)].
  - left. apply shrinks_shrinks_h. assumption.
  - right. apply claimed_claimed_h. assumption.
Qed.

#[local] Hint Resolve decorates_refl decorates_trans : frames.

Lemma title_decorates self : keeps decorates (title self).
Proof. unfold title, handler. keeps_walk. apply extern_decorates. Qed.

(** The constructors of the two subclasses are [Window.__init__] between
    steps that touch neither the registry nor a handle attribute (or they
    end before it is reached). *)
Definition around_Window_init (self : objid) (ts : Z) (ss : Q) (st st' : State W) : Prop :=
  decorates st st' \/
  exists t s2 r2 s3,
    decorates st s2 /\ Window_init self t ts ss s2 = (r2, s3) /\ decorates s3 st'.

Lemma RecycleBinFolder_init_split self ts ss st r st' :
  RecycleBinFolder_init self ts ss st = (r, st') -> around_Window_init self ts ss st st'.
Proof.
  unfold RecycleBinFolder_init. intros H.
  apply bind_inv in H. destruct H as [([] & s1 & H1 & H) | (e & H1 & ->)].
  2:{ left. eapply setattr_decorates; try eassumption; intros o; reflexivity. }
  assert (D1 : decorates st s1)
    by (eapply setattr_decorates; try eassumption; intros o; reflexivity).
  apply bind_inv in H. destruct H as [([] & s2 & H2 & H) | (e & H2 & ->)].
  2:{ left. eapply decorates_trans; [eassumption |].
      eapply extern__decorates; eassumption. }
  apply extern__decorates in H2.
  apply bind_inv in H. destruct H as [(t & s3 & H3 & H) | (e & H3 & ->)].
  - eapply keeps_getattr in H3; [| apply decorates_refl].
    right. exists t, s3, r, st'. split; [| split; [exact H | apply decorates_refl]].
    eauto using decorates_trans.
  - eapply keeps_getattr in H3; [| apply decorates_refl].
    left. eauto using decorates_trans.
Qed.

Lemma Explorer_init_split self path allow ts ss kw st r st' :
  Explorer_init self path allow ts ss kw st = (r, st') ->
  around_Window_init self ts ss st st'.
Proof.
  unfold Explorer_init. intros H.
  apply bind_inv in H. destruct H as [(v & s1 & H1 & H) | (e & H1 & ->)].
  2:{ left. eapply extern_decorates; eassumption. }
  apply extern_decorates in H1.
  destruct v as [p |].
  2:{ inversion H; subst. left. assumption. }
  apply bind_inv in H. destruct H as [([] & s2 & H2 & H) | (e & H2 & ->)].
  2:{ left. eapply decorates_trans; [eassumption |].
      eapply extern__decorates; eassumption. }
  apply extern__decorates in H2.
  assert (D2 : decorates st s2) by eauto using decorates_trans.
  apply bind_inv in H. destruct H as [([] & s3 & H3 & H) | (e & H3 & ->)].
  2:{ right. eexists. exists s2, (Raise e), st'.
      split; [exact D2 | split; [exact H3 | apply decorates_refl]]. }
  right. eexists. exists s2, (Ok tt), s3. split; [exact D2 | split; [exact H3 |]].
  revert H. generalize s3 r st'.
  change (keeps decorates
            (setattr (set_allow_chdir allow) self ;;
             ft <- title self ;; setattr (set_explorer_first_title ft) self)).
  pose proof (title_decorates self).
  keeps_walk; apply setattr_decorates; intros o; reflexivity.
Qed.

Lemma around_outcome self ts ss st st' :
  around_Window_init self ts ss st st' -> outcome self st st'.
Proof.
  intros [D | (t & s2 & r2 & s3 & D2 & Hi & D3)].
  - apply decorates_outcome. assumption.
  - eapply outcome_pre; [exact D2 |]. eapply outcome_post; [| exact D3].
    eapply Window_init_outcome. exact Hi.
Qed.

Lemma RecycleBinFolder_init_outcome self ts ss st r st' :
  RecycleBinFolder_init self ts ss st = (r, st') -> outcome self st st'.
Proof.
  intros H. eapply around_outcome. eapply RecycleBinFolder_init_split. exact H.
Qed.

Lemma Explorer_init_outcome self path allow ts ss kw st r st' :
  Explorer_init self path allow ts ss kw st = (r, st') -> outcome self st st'.
Proof.
  intros H. eapply around_outcome. eapply Explorer_init_split. exact H.
Qed.

Lemma shrinks_h_registry_ok st st' : shrinks_h st st' -> registry_ok st -> registry_ok st'.
Proof.
  intros (Hh & Hs) (Hnd & Hown). split.
  - eapply subseq_NoDup; [| eassumption]. apply subseq_map. assumption.
  - intros h o Hin. apply owns_hdlrs. rewrite Hh. apply owns_hdlrs.
    apply Hown. eapply subseq_In; eassumption.
Qed.

Lemma claimed_h_registry_ok self st st' :
  nth_error (hdlrs st) self = Some None ->
  claimed_h self st st' -> registry_ok st -> registry_ok st'.
Proof.
  intros Hself (Rg & h & H1 & H2 & H3 & H4 & H5) (Hnd & Hown). split.
  - rewrite H4. unfold Dict.keys. rewrite map_app. simpl. apply NoDup_snoc.
    + eapply subseq_NoDup; [| eassumption]. apply subseq_map. assumption.
    + apply mem_false_keys. assumption.
  - intros h' o Hin. apply owns_hdlrs. rewrite H5.
    rewrite H4 in Hin. apply in_app_or in Hin. destruct Hin as [Hin | [Heq | []]].
    + assert (Ho : nth_error (hdlrs st) o = Some (Some h')).
      { apply owns_hdlrs. apply Hown. eapply subseq_In; eassumption. }
      rewrite nth_error_list_set_other; [assumption |].
      intros <-. congruence.
    + inversion Heq; subst. apply nth_error_list_set_same.
      apply nth_error_Some. congruence.
Qed.

Lemma outcome_registry_ok self st st' :
  nth_error (hdlrs st) self = Some None ->
  outcome self st st' -> registry_ok st -> registry_ok st'.
Proof.
  intros Hself [H | H].
  - apply shrinks_h_registry_ok. assumption.
  - eapply claimed_h_registry_ok; eassumption.
Qed.

(** The state right after [__new__]. *)
Definition allocated (c : cls) (st : State W) : State W :=
  mkState (handlers st) (heap st ++ [new_obj c]) (world st) (trace st).

Lemma allocated_registry_ok c st : registry_ok st -> registry_ok (allocated c st).
Proof.
  intros (Hnd & Hown). split; [assumption |].
  intros h o Hin. destruct (Hown h o Hin) as (ob & Hn & Hh).
  exists ob. split; [| assumption]. simpl.
  rewrite nth_error_app1; [assumption |]. apply nth_error_Some. congruence.
Qed.

Lemma allocated_fresh c st :
  nth_error (hdlrs (allocated c st)) (List.length (heap st)) = Some None.
Proof.
  unfold hdlrs. simpl. rewrite map_app, nth_error_app2; rewrite length_map; [| lia].
  rewrite Nat.sub_diag. reflexivity.
Qed.

Lemma new_registry_ok c (init : objid -> M W unit) st :
  (forall self s r s', init self s = (r, s') -> outcome self s s') ->
  registry_ok st ->
  registry_ok (run (self <- alloc c ;; init self ;; ret self) st).
Proof.
  intros Hinit Hok. unfold run, bind, alloc.
  fold (allocated c st).
  destruct (init (List.length (heap st)) (allocated c st)) as [[[] | e] s'] eqn:E;
    simpl;
    (eapply outcome_registry_ok;
     [apply (allocated_fresh c st) | eapply Hinit; eassumption
     | apply allocated_registry_ok; assumption]).
Qed.

Lemma exec_registry_ok (c : call W) (st : State W) :
  registry_ok st -> registry_ok (exec c st).
Proof.
  intros Hok. destruct (is_method c) eqn:Hm.
  - eapply shrinks_h_registry_ok; [| eassumption].
    apply shrinks_shrinks_h. apply exec_method_shrinks. assumption.
  - destruct c; try discriminate; simpl.
    + apply (new_registry_ok CWindow (fun self => Window_init self _ _ _));
        [| assumption].
      intros self s r s'. apply Window_init_outcome.
    + apply (new_registry_ok CRecycleBinFolder (fun self => RecycleBinFolder_init self _ _));
        [| assumption].
      intros self s r s'. apply RecycleBinFolder_init_outcome.
    + apply (new_registry_ok CExplorer (fun self => Explorer_init self _ _ _ _ _));
        [| assumption].
      intros self s r s'. apply Explorer_init_outcome.
Qed.

Lemma reachable_registry_ok (st : State W) : reachable st -> registry_ok st.
Proof.
  induction 1 as [w | c st Hr IH].
  - split; [constructor | intros h o []].
  - apply exec_registry_ok. assumption.
Qed.

End Registry.

(** ** What the methods do *)

Section Exact.
Context {W : Type} {U : User32 W} {R : Runtime W}.
Implicit Types (st : State W) (self : objid) (h : Z).

(** The state after [Window.close] on an object whose handle is [h], and
    the response code it returns. *)
Definition closed (h : Z) (st : State W) : State W :=
  mkState (Dict.del h (handlers st)) (heap st)
          (snd (SendMessageW h WM_CLOSE 0 0 (time_sleep (5 # 100) (world st))))
          (trace st ++ [EvSleep (5 # 100); EvSendMessageW h WM_CLOSE 0 0]).

Definition close_response (h : Z) (st : State W) : Z :=
  fst (SendMessageW h WM_CLOSE 0 0 (time_sleep (5 # 100) (world st))).

Lemma handler_owns st self h : owns st self h -> handler self st = (Ok h, st).
Proof.
  intros (ob & Hn & Hh). unfold handler, getattr. rewrite Hn, Hh. reflexivity.
Qed.

Lemma handler_Ok st self h st' : handler self st = (Ok h, st') -> owns st self h /\ st' = st.
Proof.
  unfold handler, getattr, owns.
  destruct (nth_error (heap st) self) as [ob |]; [| discriminate].
  destruct (_Window__hdlr ob) as [h' |] eqn:E; [| discriminate].
  intros H. inversion H; subst. split; [exists ob; auto | reflexivity].
Qed.

Lemma owns_same_heap (s s' : State W) o h : heap s' = heap s -> owns s o h -> owns s' o h.
Proof. unfold owns. intros ->. auto. Qed.

Lemma close_owns st self h :
  owns st self h -> close self st = (Ok (close_response h st), closed h st).
Proof.
  intros Ho. unfold close, close_response, closed.
  unfold bind at 1. unfold extern_, extern at 1. simpl.
  set (s1 := mkState (handlers st) (heap st) (time_sleep (5 # 100) (world st))
                     (trace st ++ [EvSleep (5 # 100)])).
  assert (Ho1 : owns s1 self h) by (eapply owns_same_heap; [| eassumption]; reflexivity).
  rewrite (bind_Ok _ _ _ _ _ (handler_owns s1 self h Ho1)).
  unfold bind at 1. unfold extern at 1. simpl.
  destruct (SendMessageW h WM_CLOSE 0 0 (time_sleep (5 # 100) (world st))) as [res w2].
  set (s2 := mkState _ _ w2 _).
  assert (Ho2 : owns s2 self h) by (eapply owns_same_heap; [| eassumption]; reflexivity).
  rewrite (bind_Ok _ _ _ _ _ (handler_owns s2 self h Ho2)).
  unfold bind at 1. unfold contains at 1. simpl.
  destruct (Dict.mem h (handlers st)) eqn:Hm.
  - unfold bind at 1. rewrite (bind_Ok _ _ _ _ _ (handler_owns s2 self h Ho2)).
    unfold delitem, ret. subst s1 s2. simpl. rewrite <- app_assoc. reflexivity.
  - unfold bind, ret. subst s1 s2. simpl. rewrite del_absent by assumption.
    rewrite <- app_assoc. reflexivity.
Qed.

Lemma closed_absent h st : Dict.mem h (handlers (closed h st)) = false.
Proof. simpl. apply mem_del_same. Qed.

Lemma class_of_Ok st self c st' :
  class_of self st = (Ok c, st') ->
  st' = st /\ exists ob, nth_error (heap st) self = Some ob /\ ob_class ob = c.
Proof.
  unfold class_of, getattr.
  destruct (nth_error (heap st) self) as [ob |]; [| discriminate].
  intros H. inversion H; subst. split; [reflexivity | exists ob; auto].
Qed.

Lemma class_of_eq st self ob :
  nth_error (heap st) self = Some ob -> class_of self st = (Ok (ob_class ob), st).
Proof. intros H. unfold class_of, getattr. rewrite H. reflexivity. Qed.

(** [Window.__bool__] on an object whose handle is [h]. *)
Lemma Window_bool_owns st self h :
  owns st self h ->
  Window_bool self st =
    if Dict.mem h (handlers st)
    then extern (EvIsWindowEnabled h) (IsWindowEnabled h) st
    else (Ok false, st).
Proof.
  intros Ho. unfold Window_bool.
  rewrite (bind_Ok _ _ _ _ _ (handler_owns st self h Ho)).
  unfold bind at 1. unfold contains at 1.
  destruct (Dict.mem h (handlers st)); simpl; [| reflexivity].
  rewrite (bind_Ok _ _ _ _ _ (handler_owns st self h Ho)). reflexivity.
Qed.

Lemma Window_bool_Ok st self b st' :
  Window_bool self st = (Ok b, st') -> exists h, owns st self h.
Proof.
  unfold Window_bool. intros H. apply bind_inv in H.
  destruct H as [(h & s1 & H1 & _) | (e & _ & He)]; [| discriminate].
  apply handler_Ok in H1. exists h. tauto.
Qed.

Lemma truth_Ok st self b st' :
  truth self st = (Ok b, st') -> exists h, owns st self h.
Proof.
  unfold truth. intros H. apply bind_inv in H.
  destruct H as [(c & s1 & H1 & H) | (e & _ & He)]; [| discriminate].
  apply class_of_Ok in H1. destruct H1 as (-> & _).
  destruct c.
  - eapply Window_bool_Ok; eassumption.
  - unfold RecycleBinFolder_bool in H. apply bind_inv in H.
    destruct H as [(b' & s2 & H2 & _) | (e & _ & He)]; [| discriminate].
    eapply Window_bool_Ok; eassumption.
  - unfold Explorer_bool in H. apply bind_inv in H.
    destruct H as [(b' & s2 & H2 & _) | (e & _ & He)]; [| discriminate].
    eapply Window_bool_Ok; eassumption.
Qed.

(** An object whose handle is not a key of the registry is dead, whatever
    its class and whatever the outside world says; nothing is asked. *)
Lemma truth_absent st self ob h :
  nth_error (heap st) self = Some ob -> _Window__hdlr ob = Some h ->
  Dict.mem h (handlers st) = false ->
  truth self st = (Ok false, st).
Proof.
  intros Hn Hh Hm.
  assert (Ho : owns st self h) by (exists ob; auto).
  assert (HW : Window_bool self st = (Ok false, st))
    by (rewrite (Window_bool_owns st self h Ho), Hm; reflexivity).
  unfold truth. rewrite (bind_Ok _ _ _ _ _ (class_of_eq st self ob Hn)).
  destruct (ob_class ob).
  - assumption.
  - unfold RecycleBinFolder_bool. rewrite (bind_Ok _ _ _ _ _ HW). reflexivity.
  - unfold Explorer_bool. rewrite (bind_Ok _ _ _ _ _ HW). reflexivity.
Qed.

End Exact.

(** ** Reconciliation *)

Section Reconciliation.
Context {W : Type} {U : User32 W} {R : Runtime W}.
Implicit Types (st : State W) (self : objid) (h : Z).

(** A dict whose size has changed stops the iteration at once. *)
Lemma for_values_changed (body : objid -> M W unit) used pos remaining st :
  List.length (handlers st) <> used ->
  for_values body used pos remaining st = (Raise dict_changed_size, st).
Proof.
  intros Hne. apply Nat.eqb_neq in Hne.
  destruct remaining; simpl; unfold bind, get_handlers; rewrite Hne; reflexivity.
Qed.

(** The loop of [refresh] cannot take an item out and go on: when it
    returns, registry and objects are what they were. *)
Lemma for_values_refresh_Ok used pos remaining st st' :
  (forall h o, In (h, o) (handlers st) -> owns st o h) ->
  List.length (handlers st) = used ->
  for_values refresh_one used pos remaining st = (Ok tt, st') ->
  handlers st' = handlers st /\ heap st' = heap st.
Proof.
  revert pos st. induction remaining as [| n IH]; intros pos st Hown Hlen H;
    simpl in H; unfold bind at 1, get_handlers at 1 in H;
    rewrite (proj2 (Nat.eqb_eq _ _) Hlen) in H; simpl in H.
  - inversion H; subst. split; reflexivity.
  - destruct (nth_error (handlers st) pos) as [[k wd] |] eqn:En.
    2:{ inversion H; subst. split; reflexivity. }
    apply bind_inv in H. destruct H as [([] & s2 & Hb & H) | (e & _ & He)]; [| discriminate].
    unfold refresh_one in Hb. apply bind_inv in Hb.
    destruct Hb as [(b & s1 & Ht & Hb) | (e & _ & He)]; [| discriminate].
    destruct (truth_observes wd _ _ _ Ht) as (Hh1 & Hp1 & _).
    destruct b; simpl in Hb.
    + inversion Hb; subst s2.
      destruct (IH (S pos) s1) as (Hh & Hp); try assumption.
      * intros h o Hin. eapply owns_same_heap; [exact Hp1 |].
        apply Hown. rewrite <- Hh1. assumption.
      * congruence.
      * split; congruence.
    + exfalso.
      assert (Hin : In (k, wd) (handlers st)) by (eapply nth_error_In; eassumption).
      assert (Ho1 : owns s1 wd k)
        by (eapply owns_same_heap; [exact Hp1 | apply Hown; assumption]).
      rewrite (bind_Ok _ _ _ _ _ (close_owns s1 wd k Ho1)) in Hb.
      inversion Hb; subst s2.
      rewrite for_values_changed in H; [discriminate |].
      simpl. rewrite Hh1.
      pose proof (del_length_lt k (handlers st) (In_mem _ _ _ Hin)). lia.
Qed.

(** In a state that satisfies the registry invariant, a [refresh] that
    returns has removed nothing. *)
Lemma refresh_Ok_unchanged st st' :
  registry_ok st -> refresh st = (Ok tt, st') ->
  handlers st' = handlers st /\ heap st' = heap st.
Proof.
  intros (_ & Hown) H. unfold refresh, bind at 1, log at 1 in H.
  unfold bind at 1, get_handlers at 1 in H. simpl in H.
  apply for_values_refresh_Ok in H; [exact H | exact Hown | reflexivity].
Qed.

End Reconciliation.

(** ** An attempt that finds a registered handle *)

Section RegisteredHandle.
Context {W : Type} {U : User32 W} {R : Runtime W}.
Implicit Types (st : State W) (self : objid).

(** [refresh] is entered once, in the state after the find; what follows
    depends on how it ends. *)
Lemma attempt_found_registered self title st :
  found title st <> 0%Z ->
  Dict.mem (found title st) (handlers st) = true ->
  attempt self title st =
    match refresh (after_find title st) with
    | (Ok _, s2) =>
        if Dict.mem (found title st) (handlers s2) then (Ok LContinue, s2)
        else (setitem (found title st) self ;;
              setattr (set_hdlr (found title st)) self ;;
              ret LBreak) s2
    | (Raise e, s2) => (Raise e, s2)
    end.
Proof.
  intros Hnz Hm. unfold attempt, bind at 1, extern at 1.
  unfold found, after_find in *.
  destruct (FindWindowExW None None None title (world st)) as [hdlr w]; simpl in *.
  destruct (Z.eqb_spec hdlr 0) as [-> | _]; [congruence |]. simpl.
  unfold bind at 1, contains at 1. simpl. rewrite Hm.
  unfold bind at 1. unfold bind at 1.
  destruct (refresh _) as [[[] | e] s2]; [| reflexivity].
  unfold contains at 1. destruct (Dict.mem hdlr (handlers s2)); reflexivity.
Qed.

(** In a state that satisfies the registry invariant such an attempt never
    claims the handle: it goes on to the next control point with the
    registry as it was, or the error of [refresh] ends the constructor. *)
Lemma registered_handle_not_claimed self title st r st' :
  registry_ok st ->
  found title st <> 0%Z ->
  Dict.mem (found title st) (handlers st) = true ->
  attempt self title st = (r, st') ->
  (r = Ok LContinue /\ handlers st' = handlers st /\ heap st' = heap st) \/
  (exists e, r = Raise e /\ refresh (after_find title st) = (Raise e, st')).
Proof.
  intros Hok Hnz Hm H. rewrite (attempt_found_registered self title st Hnz Hm) in H.
  destruct (refresh (after_find title st)) as [[[] | e] s2] eqn:Er.
  - assert (Hok' : registry_ok (after_find title st)) by exact Hok.
    destruct (refresh_Ok_unchanged _ _ Hok' Er) as (Hh & Hp).
    simpl in Hh, Hp. rewrite Hh, Hm in H. inversion H; subst.
    left. repeat split; assumption.
  - inversion H; subst. right. exists e. split; reflexivity.
Qed.

End RegisteredHandle.

(** ** A constructor appends *)

Section Appends.
Context {W : Type} {U : User32 W} {R : Runtime W}.
Implicit Types (st : State W) (self : objid).

(** [appended self st st']: the registry of [st'] is the registry of [st],
    every item in its place, and one more item at the end: [self], under a
    handle that was not a key. *)
Definition appended (self : objid) (st st' : State W) : Prop :=
  exists h, h <> 0%Z /\ Dict.mem h (handlers st) = false /\
            handlers st' = handlers st ++ [(h, self)].

Lemma registry_ok_same st st' :
  handlers st' = handlers st -> heap st' = heap st -> registry_ok st -> registry_ok st'.
Proof.
  intros Hh Hp (Hnd & Hown). split; [rewrite Hh; assumption |].
  intros h o Hin. eapply owns_same_heap; [exact Hp |].
  apply Hown. rewrite <- Hh. assumption.
Qed.

Lemma decorates_registry_ok st st' : decorates st st' -> registry_ok st -> registry_ok st'.
Proof.
  intros (Hh & Hd). apply shrinks_h_registry_ok.
  split; [assumption | rewrite Hh; apply subseq_refl].
Qed.

(** The handle found is not registered: it is claimed in the state after
    the find. *)
Lemma attempt_found_free self title st :
  found title st <> 0%Z ->
  Dict.mem (found title st) (handlers st) = false ->
  attempt self title st =
    (setitem (found title st) self ;;
     setattr (set_hdlr (found title st)) self ;;
     ret LBreak) (after_find title st).
Proof.
  intros Hnz Hm. unfold attempt, bind at 1, extern at 1.
  unfold found, after_find in *.
  destruct (FindWindowExW None None None title (world st)) as [hdlr w]; simpl in *.
  destruct (Z.eqb_spec hdlr 0) as [-> | _]; [congruence |]. simpl.
  unfold bind at 1, contains at 1. simpl. rewrite Hm.
  unfold bind at 1. unfold ret at 1. reflexivity.
Qed.

Lemma attempt_appends self title st r st' :
  registry_ok st ->
  attempt self title st = (r, st') ->
  (r = Ok LContinue /\ handlers st' = handlers st /\ heap st' = heap st) \/
  (exists e, r = Raise e /\ subseq (handlers st') (handlers st)) \/
  (r = Ok LBreak /\ appended self st st').
Proof.
  intros Hok H.
  destruct (Z.eq_dec (found title st) 0) as [Hz | Hnz].
  { rewrite (no_match_attempt self title _ _ (no_window title st Hz)) in H.
    inversion H; subst. left. repeat split. }
  destruct (Dict.mem (found title st) (handlers st)) eqn:Hm.
  - destruct (registered_handle_not_claimed self title st r st' Hok Hnz Hm H)
      as [H1 | (e & -> & Hr)]; [left; exact H1 |].
    right. left. exists e. split; [reflexivity |].
    destruct (refresh_shrinks _ _ _ Hr) as (_ & Hs). exact Hs.
  - rewrite (attempt_found_free self title st Hnz Hm) in H.
    unfold bind, setitem, setattr, ret in H. simpl in H.
    right. right.
    destruct (nth_error (heap st) self); inversion H; subst;
      (split; [reflexivity |]); exists (found title st); simpl;
      rewrite set_absent by assumption; repeat split; assumption.
Qed.

Lemma poll_appends self title span points st r st' :
  registry_ok st ->
  poll self title span points st = (r, st') ->
  (exists e, r = Raise e /\ subseq (handlers st') (handlers st)) \/
  (r = Ok tt /\ appended self st st').
Proof.
  revert st. induction points as [| n IH]; intros st Hok H; simpl in H.
  - inversion H; subst. left. eexists. split; [reflexivity | apply subseq_refl].
  - unfold bind at 1, extern_, extern at 1 in H. simpl in H. fold (ticked span st) in H.
    assert (Hok1 : registry_ok (ticked span st)) by exact Hok.
    apply bind_inv in H. destruct H as [(c & s2 & H2 & H) | (e & H2 & ->)].
    + destruct (attempt_appends _ _ _ _ _ Hok1 H2)
        as [(Hc & Hh & Hp) | [(e & He & _) | (Hc & Ha)]].
      * inversion Hc; subst c. simpl in Hh, Hp.
        destruct (IH s2 (registry_ok_same _ _ Hh Hp Hok) H)
          as [(e & -> & Hs) | (-> & h & Hnz & Hm & Ha)].
        -- left. exists e. split; [reflexivity | rewrite <- Hh; exact Hs].
        -- right. split; [reflexivity |]. exists h. rewrite <- Hh. auto.
      * discriminate.
      * inversion Hc; subst c. inversion H; subst.
        right. split; [reflexivity | exact Ha].
    + destruct (attempt_appends _ _ _ _ _ Hok1 H2)
        as [(Hc & _) | [(e' & _ & Hs) | (Hc & _)]]; try discriminate.
      left. exists e. split; [reflexivity | exact Hs].
Qed.

Lemma Window_init_appends self title ts ss st r st' :
  registry_ok st ->
  Window_init self title ts ss st = (r, st') ->
  subseq (handlers st') (handlers st) \/ appended self st st'.
Proof.
  intros Hok H. unfold Window_init, bind in H. simpl in H.
  destruct (poll_appends _ _ _ _ _ _ _ Hok H) as [(e & _ & Hs) | (_ & Ha)];
    [left; exact Hs | right; exact Ha].
Qed.

Lemma around_appends self ts ss st st' :
  registry_ok st ->
  around_Window_init self ts ss st st' ->
  subseq (handlers st') (handlers st) \/ appended self st st'.
Proof.
  intros Hok [(Hh & _) | (t & s2 & r2 & s3 & D2 & Hi & (Hh3 & _))].
  - left. rewrite Hh. apply subseq_refl.
  - pose proof (decorates_registry_ok _ _ D2 Hok) as Hok2.
    destruct D2 as (Hh2 & _).
    destruct (Window_init_appends _ _ _ _ _ _ _ Hok2 Hi) as [Hs | (h & Hnz & Hm & Ha)].
    + left. rewrite Hh3, <- Hh2. exact Hs.
    + right. exists h. rewrite Hh3, <- Hh2. auto.
Qed.

(** The registry after any call in a state that satisfies the invariant:
    what was there with items left out, or everything that was there and
    one item more, for the object the call has made. *)
Lemma exec_appends (c : call W) st :
  registry_ok st ->
  subseq (handlers (exec c st)) (handlers st) \/
  appended (List.length (heap st)) st (exec c st).
Proof.
  intros Hok.
  assert (Hnew : forall cl (init : objid -> M W unit),
            (forall self s r s', registry_ok s -> init self s = (r, s') ->
               subseq (handlers s') (handlers s) \/ appended self s s') ->
            let st' := run (self <- alloc cl ;; init self ;; ret self) st in
            subseq (handlers st') (handlers st) \/
            appended (List.length (heap st)) st st').
  { intros cl init Hinit. unfold run, bind, alloc. fold (allocated cl st).
    pose proof (allocated_registry_ok cl st Hok) as Hok0.
    destruct (init (List.length (heap st)) (allocated cl st)) as [[[] | e] s'] eqn:E;
      simpl; exact (Hinit _ _ _ _ Hok0 E). }
  destruct (is_method c) eqn:Hm.
  - left. apply exec_method_shrinks. assumption.
  - destruct c; try discriminate; simpl.
    + apply (Hnew CWindow (fun self => Window_init self _ _ _)).
      intros self s r s'. apply Window_init_appends.
    + apply (Hnew CRecycleBinFolder (fun self => RecycleBinFolder_init self _ _)).
      intros self s r s' Hs H. eapply around_appends; [exact Hs |].
      eapply RecycleBinFolder_init_split. exact H.
    + apply (Hnew CExplorer (fun self => Explorer_init self _ _ _ _ _)).
      intros self s r s' Hs H. eapply around_appends; [exact Hs |].
      eapply Explorer_init_split. exact H.
Qed.

End Appends.

(** ** Objects are never changed after construction *)

Section Growth.
Context {W : Type} {U : User32 W} {R : Runtime W}.
Implicit Types (st : State W) (self : objid) (h : Z) (n : nat).

Lemma In_set {V : Type} (k k' : Z) (v v' : V) (d : Dict.t V) :
  In (k', v') (Dict.set k v d) -> In (k', v') d \/ v' = v.
Proof.
  induction d as [| [k0 v0] d IH]; simpl.
  - intros [H | []]. inversion H. right. reflexivity.
  - destruct (Z.eqb k k0); simpl.
    + intros [H | H]; [inversion H; right; reflexivity | left; right; assumption].
    + intros [H | H]; [left; left; assumption |].
      destruct (IH H) as [Hin | Heq]; [left; right; assumption | right; assumption].
Qed.

Lemma shrinks_keeps_grows n {A} (m : M W A) : keeps shrinks m -> keeps (grows n) m.
Proof. apply keeps_weaken. intros s s'. apply shrinks_grows. Qed.

Lemma setitem_grows n h self : (n <= self)%nat -> keeps (@grows W n) (setitem h self).
Proof.
  intros Hle st r st' H. inversion H; subst. split; [simpl; lia | split].
  - intros o _. reflexivity.
  - intros h' o Hin. simpl in Hin. apply In_set in Hin.
    destruct Hin as [Hin | ->]; [left; assumption | right; assumption].
Qed.

Lemma setattr_grows n (upd : obj -> obj) self :
  (n <= self)%nat -> keeps (@grows W n) (setattr upd self).
Proof.
  intros Hle st r st' H. unfold setattr in H.
  destruct (nth_error (heap st) self) as [ob |]; inversion H; subst;
    [| apply grows_refl].
  split; [simpl; rewrite list_set_length; lia | split].
  - intros o Ho. simpl. apply nth_error_list_set_other. lia.
  - intros h' o Hin. left. assumption.
Qed.

#[local] Hint Resolve truth_shrinks close_shrinks rect_shrinks title_shrinks
  extern_shrinks extern__shrinks log_shrinks delitem_shrinks
  refresh_shrinks : frames.

(** As [keeps_walk], for [grows n]: what only shrinks the registry is taken
    whole, and the two writes of a constructor are allowed from [n] on. *)
Ltac grows_walk :=
  repeat first
    [ assumption
    | match goal with H : forall t, keeps _ (Window_init _ t _ _) |- _ => apply H end
    | apply shrinks_keeps_grows; solve [eauto with frames]
    | apply setitem_grows; assumption
    | apply setattr_grows; assumption
    | apply keeps_bind; [solve [eauto with frames] | | intro]
    | apply keeps_ret; solve [eauto with frames]
    | apply keeps_raise; solve [eauto with frames]
    | apply keeps_getattr; solve [eauto with frames]
    | apply keeps_contains; solve [eauto with frames]
    | match goal with
      | |- keeps _ (if ?b then _ else _) => destruct b
      | |- keeps _ (match ?x with _ => _ end) => destruct x
      end ].

Lemma Window_init_grows n self title ts ss :
  (n <= self)%nat -> keeps (grows n) (Window_init self title ts ss).
Proof.
  intros Hle.
  assert (Hat : keeps (grows n) (attempt self title)).
  { unfold attempt. grows_walk. }
  unfold Window_init.
  apply keeps_bind; [apply grows_trans | | intros points].
  { intros st r st' H. inversion H; subst. apply grows_refl. }
  induction points as [| k IH]; simpl; grows_walk.
Qed.

Lemma RecycleBinFolder_init_grows n self ts ss :
  (n <= self)%nat -> keeps (grows n) (RecycleBinFolder_init self ts ss).
Proof.
  intros Hle. unfold RecycleBinFolder_init, RecycleBinFolder_first_title.
  pose proof (fun t => Window_init_grows n self t ts ss Hle) as HW.
  grows_walk.
Qed.

Lemma Explorer_init_grows n self path allow ts ss kw :
  (n <= self)%nat -> keeps (grows n) (Explorer_init self path allow ts ss kw).
Proof.
  intros Hle. unfold Explorer_init.
  pose proof (fun t => Window_init_grows n self t ts ss Hle) as HW.
  grows_walk.
Qed.

Lemma allocated_grows n c st : (n <= List.length (heap st))%nat -> grows n st (allocated c st).
Proof.
  intros Hle. split; [simpl; rewrite length_app; lia | split].
  - intros o Ho. simpl. apply nth_error_app1. lia.
  - intros h o Hin. left. assumption.
Qed.

Lemma new_grows n c (init : objid -> M W unit) st :
  (n <= List.length (heap st))%nat ->
  (forall self, (n <= self)%nat -> keeps (grows n) (init self)) ->
  grows n st (run (self <- alloc c ;; init self ;; ret self) st).
Proof.
  intros Hle Hinit. unfold run, bind, alloc. fold (allocated c st).
  destruct (init (List.length (heap st)) (allocated c st)) as [[[] | e] s'] eqn:E;
    simpl; (eapply grows_trans; [apply allocated_grows; assumption |]);
    eapply Hinit; eassumption.
Qed.

Lemma exec_grows n (c : call W) st :
  (n <= List.length (heap st))%nat -> grows n st (exec c st).
Proof.
  intros Hle. destruct (is_method c) eqn:Hm.
  - apply shrinks_grows. apply exec_method_shrinks. assumption.
  - destruct c; try discriminate; simpl.
    + apply (new_grows n CWindow (fun self => Window_init self _ _ _)); [assumption |].
      intros self Hs. apply Window_init_grows. assumption.
    + apply (new_grows n CRecycleBinFolder (fun self => RecycleBinFolder_init self _ _));
        [assumption |].
      intros self Hs. apply RecycleBinFolder_init_grows. assumption.
    + apply (new_grows n CExplorer (fun self => Explorer_init self _ _ _ _ _));
        [assumption |].
      intros self Hs. apply Explorer_init_grows. assumption.
Qed.

Lemma exec_all_grows n (cs : list (call W)) st :
  (n <= List.length (heap st))%nat -> grows n st (exec_all cs st).
Proof.
  revert st. induction cs as [| c cs IH]; intros st Hle; simpl.
  - apply grows_refl.
  - pose proof (exec_grows n c st Hle) as Hg.
    eapply grows_trans; [exact Hg |]. apply IH.
    destruct Hg as (Hlen & _). lia.
Qed.

(** No call, constructor calls included, changes an attribute of an object
    that exists. *)
Lemma exec_all_object (cs : list (call W)) st o ob :
  nth_error (heap st) o = Some ob ->
  nth_error (heap (exec_all cs st)) o = Some ob.
Proof.
  intros Hn.
  destruct (exec_all_grows (List.length (heap st)) cs st (Nat.le_refl _)) as (_ & Hsame & _).
  rewrite Hsame; [assumption |]. apply nth_error_Some. congruence.
Qed.

Lemma exec_all_methods_shrinks (cs : list (call W)) st :
  forallb is_method cs = true -> shrinks st (exec_all cs st).
Proof.
  revert st. induction cs as [| c cs IH]; intros st Hm.
  - apply shrinks_refl.
  - cbn [forallb] in Hm. apply andb_true_iff in Hm. destruct Hm as [Hc Hcs].
    cbn [exec_all fold_left]. eapply shrinks_trans.
    + apply exec_method_shrinks. exact Hc.
    + apply IH. exact Hcs.
Qed.

End Growth.

(** ** What a constructor stores *)

Section Stored.
Context {W : Type} {U : User32 W} {R : Runtime W}.
Implicit Types (st : State W) (self : objid) (h : Z).

Lemma Window_init_Ok self title ts ss st st' ob :
  nth_error (heap st) self = Some ob ->
  Window_init self title ts ss st = (Ok tt, st') ->
  exists h, h <> 0%Z /\ In (h, self) (handlers st') /\
            heap st' = list_set (heap st) self (set_hdlr h ob).
Proof.
  intros Hn H. apply Window_init_cases in H.
  destruct H as [(e & He & _) | (_ & Rg & h & _ & Hnz & _ & Hh & Hp)]; [discriminate |].
  exists h. split; [assumption |]. split.
  - rewrite Hh. apply in_or_app. right. left. reflexivity.
  - rewrite Hp. unfold heap_with_hdlr. rewrite Hn. reflexivity.
Qed.

Lemma setattr_eq (upd : obj -> obj) self st ob :
  nth_error (heap st) self = Some ob ->
  setattr upd self st =
    (Ok tt, mkState (handlers st) (list_set (heap st) self (upd ob)) (world st) (trace st)).
Proof. intros Hn. unfold setattr. rewrite Hn. reflexivity. Qed.

Lemma nth_error_set self (hp : list obj) ob ob' :
  nth_error hp self = Some ob -> nth_error (list_set hp self ob') self = Some ob'.
Proof.
  intros Hn. apply nth_error_list_set_same. apply nth_error_Some. congruence.
Qed.

Lemma allocated_self c st :
  nth_error (heap (allocated c st)) (List.length (heap st)) = Some (new_obj c).
Proof.
  simpl. rewrite nth_error_app2 by lia. rewrite Nat.sub_diag. reflexivity.
Qed.

Lemma Window_new_Ok title ts ss st self st' :
  Window_new title ts ss st = (Ok self, st') ->
  exists h, h <> 0%Z /\ In (h, self) (handlers st') /\
    nth_error (heap st') self = Some (mkObj CWindow (Some h) None None None).
Proof.
  unfold Window_new, bind at 1, alloc. fold (allocated CWindow st). intros H.
  apply bind_inv in H. destruct H as [([] & s1 & H1 & H) | (e & _ & He)]; [| discriminate].
  inversion H; subst; clear H.
  destruct (Window_init_Ok _ _ _ _ _ _ _ (allocated_self CWindow st) H1)
    as (h & Hnz & Hin & Hp).
  exists h. split; [assumption |]. split; [assumption |].
  rewrite Hp. eapply nth_error_set. apply allocated_self.
Qed.

Lemma RecycleBinFolder_new_Ok ts ss st self st' :
  RecycleBinFolder_new ts ss st = (Ok self, st') ->
  exists h, h <> 0%Z /\ In (h, self) (handlers st') /\
    nth_error (heap st') self =
      Some (mkObj CRecycleBinFolder (Some h) (Some "ごみ箱") None None).
Proof.
  unfold RecycleBinFolder_new, bind at 1, alloc. fold (allocated CRecycleBinFolder st).
  set (s0 := allocated CRecycleBinFolder st). set (me := List.length (heap st)).
  intros H.
  apply bind_inv in H. destruct H as [([] & s4 & H1 & H) | (e & _ & He)]; [| discriminate].
  inversion H; subst self st'; clear H.
  unfold RecycleBinFolder_init in H1.
  rewrite (bind_Ok _ _ _ _ _ (setattr_eq _ me s0 _ (allocated_self _ st))) in H1.
  unfold bind at 1, extern_, extern at 1 in H1. simpl in H1.
  match type of H1 with bind _ _ ?s = _ => set (s2 := s) in * end.
  assert (Hn2 : nth_error (heap s2) me =
                Some (mkObj CRecycleBinFolder None (Some "ごみ箱") None None)).
  { subst s2. simpl. eapply nth_error_set. apply allocated_self. }
  unfold RecycleBinFolder_first_title, bind at 1, getattr at 1 in H1.
  rewrite Hn2 in H1. simpl in H1.
  destruct (Window_init_Ok _ _ _ _ _ _ _ Hn2 H1) as (h & Hnz & Hin & Hp).
  exists h. split; [assumption |]. split; [assumption |].
  rewrite Hp. eapply nth_error_set. exact Hn2.
Qed.

Lemma Explorer_new_Ok path allow ts ss kw st self st' :
  Explorer_new path allow ts ss kw st = (Ok self, st') ->
  exists h t s2 s3,
    Window_init self t ts ss s2 = (Ok tt, s3) /\
    h <> 0%Z /\ In (h, self) (handlers st') /\
    nth_error (heap st') self =
      Some (mkObj CExplorer (Some h) None (Some allow)
                  (Some (fst (GetWindowTextW h (world s3))))).
Proof.
  unfold Explorer_new, bind at 1, alloc. fold (allocated CExplorer st).
  set (s0 := allocated CExplorer st). set (me := List.length (heap st)).
  intros H.
  apply bind_inv in H. destruct H as [([] & s9 & H1 & H) | (e & _ & He)]; [| discriminate].
  inversion H; subst self st'; clear H.
  unfold Explorer_init, bind at 1, extern at 1 in H1. simpl in H1.
  destruct (CPath_validate path (world st)) as [p |]; [| discriminate].
  unfold bind at 1, extern_, extern at 1 in H1. simpl in H1.
  match type of H1 with bind _ _ ?s = _ => set (s2 := s) in * end.
  assert (Hn2 : nth_error (heap s2) me = Some (new_obj CExplorer))
    by (apply (allocated_self CExplorer st)).
  apply bind_inv in H1. destruct H1 as [([] & s3 & H3 & H1) | (e & _ & He)]; [| discriminate].
  destruct (Window_init_Ok _ _ _ _ _ _ _ Hn2 H3) as (h & Hnz & Hin & Hp).
  assert (Hn3 : nth_error (heap s3) me = Some (set_hdlr h (new_obj CExplorer)))
    by (rewrite Hp; eapply nth_error_set; exact Hn2).
  rewrite (bind_Ok _ _ _ _ _ (setattr_eq _ me s3 _ Hn3)) in H1.
  match type of H1 with bind _ _ ?s = _ => set (s4 := s) in * end.
  assert (Hn4 : nth_error (heap s4) me =
                Some (mkObj CExplorer (Some h) None (Some allow) None))
    by (subst s4; simpl; eapply nth_error_set; exact Hn3).
  assert (Ho4 : owns s4 me h) by (eexists; split; [exact Hn4 | reflexivity]).
  unfold title, bind at 1 in H1.
  rewrite (bind_Ok _ _ _ _ _ (handler_owns s4 me h Ho4)) in H1.
  unfold extern in H1. simpl in H1.
  destruct (GetWindowTextW h (world s3)) as [ft w5] eqn:Eft.
  match type of H1 with setattr _ _ ?s = _ => set (s5 := s) in * end.
  assert (Hn5 : nth_error (heap s5) me =
                Some (mkObj CExplorer (Some h) None (Some allow) None)) by exact Hn4.
  rewrite (setattr_eq _ me s5 _ Hn5) in H1. inversion H1; subst s9; clear H1.
  exists h. eexists. exists s2, s3. split; [exact H3 |]. split; [assumption |].
  split; [exact Hin |]. rewrite Eft. simpl. eapply nth_error_set. exact Hn5.
Qed.

End Stored.

(** * The claims *)

(** Events of a kind [p] did not happen between [st] and [st']. *)
Definition without {W : Type} (p : event -> bool) (st st' : State W) : Prop :=
  exists evs, trace st' = trace st ++ evs /\ forallb (fun e => negb (p e)) evs = true.

Definition is_move (e : event) : bool :=
  match e with EvMoveWindow _ _ _ _ _ => true | _ => false end.

Definition is_rect (e : event) : bool :=
  match e with EvGetWindowRect _ => true | _ => false end.

Section DeadWindows.
Context {W : Type} {U : User32 W} {R : Runtime W}.
Implicit Types (st : State W) (self : objid) (h : Z).

Lemma dead_then_closed st self st1 (p : event -> bool) :
  truth self st = (Ok false, st1) ->
  (forall e, is_query e = true -> p e = false) ->
  p (EvSleep (5 # 100)) = false ->
  (forall h, p (EvSendMessageW h WM_CLOSE 0 0) = false) ->
  exists h, owns st self h /\ owns st1 self h /\
    close self st1 = (Ok (close_response h st1), closed h st1) /\
    without p st (closed h st1).
Proof.
  intros Ht Hq Hsl Hsd.
  destruct (truth_Ok _ _ _ _ Ht) as (h & Ho).
  destruct (truth_observes self _ _ _ Ht) as (Hh & Hp & evs & Htr & Hev).
  assert (Ho1 : owns st1 self h) by (eapply owns_same_heap; eassumption).
  exists h. repeat split; try assumption.
  - apply close_owns. assumption.
  - exists (evs ++ [EvSleep (5 # 100); EvSendMessageW h WM_CLOSE 0 0]).
    simpl. rewrite Htr, app_assoc. split; [reflexivity |].
    rewrite forallb_app. simpl. rewrite Hsl, Hsd. simpl.
    rewrite andb_true_r. rewrite forallb_forall in *.
    intros e He. rewrite Hq; [reflexivity | apply Hev; assumption].
Qed.

Lemma closed_still_dead st self h :
  owns st self h -> truth self (closed h st) = (Ok false, closed h st).
Proof.
  intros (ob & Hn & Hh). eapply truth_absent; [exact Hn | exact Hh |].
  apply closed_absent.
Qed.

End DeadWindows.

Lemma reachable_exec_all {W : Type} {U : User32 W} {R : Runtime W}
    (cs : list (call W)) (st : State W) :
  reachable st -> reachable (exec_all cs st).
Proof.
  revert st. induction cs as [| c cs IH]; intros st Hr; simpl.
  - assumption.
  - apply IH. apply reach_exec. assumption.
Qed.

(** C1.  In every reachable state no handle is a key of the registry twice,
    so a handle is tracked by at most one window object; no object is
    tracked under two handles; and every item [(h, o)] is an object whose
    own handle is [h].  No call overwrites an item: after a call the
    registry is the one before with items left out (close, reconciliation),
    or it is the one before, every item in its place, with one new item at
    the end, for the object the constructor call has made, under a handle
    that was not a key. *)
Theorem registry_unique_owner {W : Type} {U : User32 W} {R : Runtime W}
    (st : State W) :
  reachable st ->
  NoDup (Dict.keys (handlers st)) /\
  (forall h o1 o2, In (h, o1) (handlers st) -> In (h, o2) (handlers st) -> o1 = o2) /\
  (forall h1 h2 o, In (h1, o) (handlers st) -> In (h2, o) (handlers st) -> h1 = h2) /\
  (forall h o, In (h, o) (handlers st) -> owns st o h) /\
  (forall c : call W,
      subseq (handlers (exec c st)) (handlers st) \/
      exists h,
        h <> 0%Z /\ Dict.mem h (handlers st) = false /\
        handlers (exec c st) = handlers st ++ [(h, List.length (heap st))]).
Proof.
  intros Hr. pose proof (reachable_registry_ok st Hr) as Hok.
  destruct Hok as (Hnd & Hown).
  split; [assumption |]. split; [| split; [| split]].
  - intros h o1 o2. apply NoDup_keys_unique. assumption.
  - intros h1 h2 o H1 H2.
    destruct (Hown _ _ H1) as (ob1 & Hn1 & Hh1).
    destruct (Hown _ _ H2) as (ob2 & Hn2 & Hh2). congruence.
  - assumption.
  - intros c. apply exec_appends. split; assumption.
Qed.

Lemma registry_unique_owner_witness :
  NoDup (Dict.keys (handlers Scenario.tracked)) /\
  (forall h o1 o2,
      In (h, o1) (handlers Scenario.tracked) ->
      In (h, o2) (handlers Scenario.tracked) -> o1 = o2) /\
  (forall h1 h2 o,
      In (h1, o) (handlers Scenario.tracked) ->
      In (h2, o) (handlers Scenario.tracked) -> h1 = h2) /\
  (forall h o, In (h, o) (handlers Scenario.tracked) -> owns Scenario.tracked o h) /\
  (forall c : call Desktop.t,
      subseq (handlers (exec c Scenario.tracked)) (handlers Scenario.tracked) \/
      exists h,
        h <> 0%Z /\ Dict.mem h (handlers Scenario.tracked) = false /\
        handlers (exec c Scenario.tracked) =
          handlers Scenario.tracked ++ [(h, List.length (heap Scenario.tracked))]).
Proof.
  apply (registry_unique_owner Scenario.tracked).
  unfold Scenario.tracked. apply reachable_exec_all. apply reach_initial.
Defined.

(** C2: the code does not do what the claim says when reconciliation finds
    a stale entry.  "Calc" is found under handle 2, which is registered to
    object 1; [refresh] is entered once, removes the stale entry of handle
    1 and raises [RuntimeError].  Handle 2 is still registered, but the
    constructor does not go on polling: the error leaves it after the first
    of three control points. *)
Theorem stale_entry_aborts_acquisition :
  found "Calc" Scenario.memo_gone = 2%Z /\
  Dict.mem 2 (handlers Scenario.memo_gone) = true /\
  wiggle_begin 3 Scenario.span (world Scenario.memo_gone) = 3%nat /\
  fst (Window_new "Calc" 3 Scenario.span Scenario.memo_gone) = Raise dict_changed_size /\
  (let st' := run (Window_new "Calc" 3 Scenario.span) Scenario.memo_gone in
   handlers st' = [(2%Z, 1%nat)] /\
   trace st' =
     trace Scenario.memo_gone ++
       [EvTimer; EvFindWindowExW "Calc"; EvRefresh; EvIsWindowEnabled 1;
        EvSleep (5 # 100); EvSendMessageW 1 WM_CLOSE 0 0]).
Proof.
  assert (H : Window_new "Calc" 3 Scenario.span Scenario.memo_gone =
              (Raise dict_changed_size,
               run (Window_new "Calc" 3 Scenario.span) Scenario.memo_gone))
    by (vm_compute; reflexivity).
  rewrite H. repeat split; vm_compute; reflexivity.
Qed.

(** C3.  When the timer runs out and no attempt has claimed a handle (each
    time no window had the title, or the handle found was still registered
    after reconciliation), [Window.__init__] raises [TimeoutError]; its text
    is built around the requested title; the state it leaves is the state
    after the last attempt, so nothing is tried again.  [Window(title, ...)]
    raises the same error. *)
Theorem timeout_carries_title {W : Type} {U : User32 W} {R : Runtime W}
    (st st' : State W) (self : objid) (title : string) (ts : Z) (ss : Q) :
  exhausted title ss (wiggle_begin ts ss (world st)) st st' ->
  Window_init self title ts ss st = (Raise (TimeoutError (timeout_msg title)), st') /\
  (forall st0 : State W, st = allocated CWindow st0 ->
     Window_new title ts ss st0 = (Raise (TimeoutError (timeout_msg title)), st')) /\
  timeout_msg title =
    ("ウィンドウ" ++ dquote ++ title ++ dquote ++ "のハンドルを取得できませんでした。")%string.
Proof.
  intros Hex.
  assert (Hinit : forall self,
            Window_init self title ts ss st =
              (Raise (TimeoutError (timeout_msg title)), st')).
  { intros self'. unfold Window_init, bind. apply exhausted_poll. assumption. }
  split; [apply Hinit |]. split; [| reflexivity].
  intros st0 ->. unfold Window_new, bind at 1, alloc. fold (allocated CWindow st0).
  rewrite (bind_Raise _ _ _ _ _ (Hinit _)). reflexivity.
Qed.

Lemma timeout_carries_title_witness :
  Window_init 0%nat "NotepadXYZ" 1 Scenario.span (allocated CWindow (initial [])) =
    (Raise (TimeoutError (timeout_msg "NotepadXYZ")),
     after_find "NotepadXYZ" (ticked Scenario.span (allocated CWindow (initial [])))) /\
  (forall st0 : State Desktop.t, allocated CWindow (initial []) = allocated CWindow st0 ->
     Window_new "NotepadXYZ" 1 Scenario.span st0 =
       (Raise (TimeoutError (timeout_msg "NotepadXYZ")),
        after_find "NotepadXYZ" (ticked Scenario.span (allocated CWindow (initial []))))) /\
  timeout_msg "NotepadXYZ" =
    ("ウィンドウ" ++ dquote ++ "NotepadXYZ" ++ dquote ++ "のハンドルを取得できませんでした。")%string.
Proof.
  apply (timeout_carries_title (allocated CWindow (initial []))
           (after_find "NotepadXYZ" (ticked Scenario.span (allocated CWindow (initial []))))
           0%nat "NotepadXYZ" 1%Z Scenario.span).
  apply (exhausted_S "NotepadXYZ" Scenario.span 0
           (allocated CWindow (initial []))
           (after_find "NotepadXYZ" (ticked Scenario.span (allocated CWindow (initial []))))).
  - apply no_window. reflexivity.
  - apply exhausted_O.
Defined.

(** C4.  The liveness check of a plain [Window] object is true exactly when
    its handle is a key of [Window.handlers] and [IsWindowEnabled] on that
    handle answers true. *)
Theorem Window_liveness {W : Type} {U : User32 W} {R : Runtime W}
    (st : State W) (self : objid) (ob : obj) (h : Z) :
  nth_error (heap st) self = Some ob ->
  ob_class ob = CWindow ->
  _Window__hdlr ob = Some h ->
  exists b st',
    truth self st = (Ok b, st') /\
    (b = true <->
     Dict.mem h (handlers st) = true /\ fst (IsWindowEnabled h (world st)) = true).
Proof.
  intros Hn Hc Hh.
  assert (Ho : owns st self h) by (exists ob; auto).
  unfold truth. rewrite (bind_Ok _ _ _ _ _ (class_of_eq st self ob Hn)), Hc.
  rewrite (Window_bool_owns st self h Ho).
  destruct (Dict.mem h (handlers st)).
  - unfold extern. destruct (IsWindowEnabled h (world st)) as [b w]. simpl.
    eexists; eexists. split; [reflexivity |]. tauto.
  - exists false. eexists. split; [reflexivity |].
    split; [discriminate | intros [H _]; discriminate].
Qed.

Lemma Window_liveness_witness :
  exists b st',
    truth 0%nat Scenario.tracked = (Ok b, st') /\
    (b = true <->
     Dict.mem 1 (handlers Scenario.tracked) = true /\
     fst (IsWindowEnabled 1 (world Scenario.tracked)) = true).
Proof.
  apply (Window_liveness Scenario.tracked 0%nat
           (mkObj CWindow (Some 1%Z) None None None) 1%Z); reflexivity.
Defined.

(** C5 as stated fails.  Object 0 tracked "Calc" under handle 1 and was
    closed, so handle 1 left the registry and the object was dead.  The OS
    then gave the value 1 to the new window "Memo", and object 1 acquired
    it: the liveness check of object 0 is true again, although the registry
    holds the handle for object 1. *)
Lemma liveness_follows_reused_handle :
  reachable Scenario.closed_once /\
  owns Scenario.closed_once 0%nat 1 /\
  Dict.mem 1 (handlers Scenario.closed_once) = false /\
  truth 0%nat Scenario.closed_once = (Ok false, Scenario.closed_once) /\
  handlers Scenario.reused = [(1%Z, 1%nat)] /\
  fst (truth 0%nat Scenario.reused) = Ok true.
Proof.
  split.
  { unfold Scenario.closed_once. apply reachable_exec_all. apply reach_initial. }
  split.
  { exists (mkObj CWindow (Some 1%Z) None None None). split; reflexivity. }
  repeat split; reflexivity.
Qed.

(** C5, amended.  Once the handle [h] of an object is not a key of the
    registry, every liveness check of the object returns false for as long
    as [h] is not a key: after any calls that are not constructor calls
    (methods of any object, changes of the outside world), and after any
    calls at all that leave [h] out of the registry.  The object itself is
    never put into the registry again, under any handle. *)
Theorem liveness_after_removal {W : Type} {U : User32 W} {R : Runtime W}
    (st : State W) (self : objid) (ob : obj) (h : Z) :
  reachable st ->
  nth_error (heap st) self = Some ob ->
  _Window__hdlr ob = Some h ->
  Dict.mem h (handlers st) = false ->
  (forall cs, forallb is_method cs = true ->
     truth self (exec_all cs st) = (Ok false, exec_all cs st)) /\
  (forall cs, Dict.mem h (handlers (exec_all cs st)) = false ->
     truth self (exec_all cs st) = (Ok false, exec_all cs st)) /\
  (forall cs h', ~ In (h', self) (handlers (exec_all cs st))).
Proof.
  intros Hr Hn Hh Hm. split; [| split].
  - intros cs Hcs.
    destruct (exec_all_methods_shrinks cs st Hcs) as (Hheap & Hsub).
    eapply truth_absent.
    + rewrite Hheap. exact Hn.
    + exact Hh.
    + eapply subseq_mem_false; eassumption.
  - intros cs Hcs. eapply truth_absent; [| exact Hh | exact Hcs].
    apply exec_all_object. exact Hn.
  - intros cs h' Hin.
    destruct (exec_all_grows (List.length (heap st)) cs st (Nat.le_refl _))
      as (_ & _ & Hnew).
    destruct (Hnew _ _ Hin) as [Hold | Hle].
    + destruct (reachable_registry_ok st Hr) as (_ & Hown).
      destruct (Hown _ _ Hold) as (ob' & Hn' & Hh').
      assert (h' = h) by congruence. subst h'.
      apply In_mem in Hold. congruence.
    + assert (self < List.length (heap st))%nat
        by (apply nth_error_Some; congruence).
      lia.
Qed.

Lemma liveness_after_removal_witness :
  (forall cs, forallb is_method cs = true ->
     truth 0%nat (exec_all cs Scenario.closed_once) =
       (Ok false, exec_all cs Scenario.closed_once)) /\
  (forall cs, Dict.mem 1 (handlers (exec_all cs Scenario.closed_once)) = false ->
     truth 0%nat (exec_all cs Scenario.closed_once) =
       (Ok false, exec_all cs Scenario.closed_once)) /\
  (forall cs h', ~ In (h', 0%nat) (handlers (exec_all cs Scenario.closed_once))).
Proof.
  apply (liveness_after_removal Scenario.closed_once 0%nat
           (mkObj CWindow (Some 1%Z) None None None) 1%Z).
  - unfold Scenario.closed_once. apply reachable_exec_all. apply reach_initial.
  - reflexivity.
  - reflexivity.
  - reflexivity.
Defined.

(** C6.  On an object whose liveness check is false, [move_window],
    [set_position] and [set_size] each close the window (the close message
    is sent, the handle is deleted from the registry if it is there) and
    return [False]; [MoveWindow] is not called and nothing is raised.  The
    same call made again on the object, dead as it still is, returns [False]
    again. *)
Theorem dead_window_operations {W : Type} {U : User32 W} {R : Runtime W}
    (st st1 : State W) (self : objid) :
  truth self st = (Ok false, st1) ->
  exists h, owns st self h /\
    let st2 := closed h st1 in
    (forall x y n_width n_height,
        move_window self x y n_width n_height st = (Ok false, st2) /\
        fst (move_window self x y n_width n_height st2) = Ok false) /\
    (forall x y,
        set_position self x y st = (Ok false, st2) /\
        fst (set_position self x y st2) = Ok false) /\
    (forall width height,
        set_size self width height st = (Ok false, st2) /\
        fst (set_size self width height st2) = Ok false) /\
    Dict.mem h (handlers st2) = false /\
    In (EvSendMessageW h WM_CLOSE 0 0) (trace st2) /\
    without is_move st st2.
Proof.
  intros Ht.
  destruct (dead_then_closed st self st1 is_move Ht) as (h & Ho & Ho1 & Hc & Hw);
    try reflexivity.
  { intros [] He; try discriminate; reflexivity. }
  exists h. split; [assumption |]. intros st2.
  assert (Ho2 : owns st2 self h) by (eapply owns_same_heap; [| exact Ho1]; reflexivity).
  pose proof (closed_still_dead st1 self h Ho1) as Ht2. fold st2 in Ht2.
  pose proof (close_owns st2 self h Ho2) as Hc2.
  repeat split.
  - unfold move_window. rewrite (bind_Ok _ _ _ _ _ Ht). simpl.
    rewrite (bind_Ok _ _ _ _ _ Hc). reflexivity.
  - unfold move_window. rewrite (bind_Ok _ _ _ _ _ Ht2). simpl.
    rewrite (bind_Ok _ _ _ _ _ Hc2). reflexivity.
  - unfold set_position. rewrite (bind_Ok _ _ _ _ _ Ht). simpl.
    rewrite (bind_Ok _ _ _ _ _ Hc). reflexivity.
  - unfold set_position. rewrite (bind_Ok _ _ _ _ _ Ht2). simpl.
    rewrite (bind_Ok _ _ _ _ _ Hc2). reflexivity.
  - unfold set_size. rewrite (bind_Ok _ _ _ _ _ Ht). simpl.
    rewrite (bind_Ok _ _ _ _ _ Hc). reflexivity.
  - unfold set_size. rewrite (bind_Ok _ _ _ _ _ Ht2). simpl.
    rewrite (bind_Ok _ _ _ _ _ Hc2). reflexivity.
  - apply closed_absent.
  - subst st2. simpl. apply in_or_app. right. simpl. auto.
  - assumption.
Qed.

Lemma dead_window_operations_witness :
  exists h, owns Scenario.memo_gone 0%nat h /\
    let st2 := closed h Scenario.memo_checked in
    (forall x y n_width n_height,
        move_window 0%nat x y n_width n_height Scenario.memo_gone = (Ok false, st2) /\
        fst (move_window 0%nat x y n_width n_height st2) = Ok false) /\
    (forall x y,
        set_position 0%nat x y Scenario.memo_gone = (Ok false, st2) /\
        fst (set_position 0%nat x y st2) = Ok false) /\
    (forall width height,
        set_size 0%nat width height Scenario.memo_gone = (Ok false, st2) /\
        fst (set_size 0%nat width height st2) = Ok false) /\
    Dict.mem h (handlers st2) = false /\
    In (EvSendMessageW h WM_CLOSE 0 0) (trace st2) /\
    without is_move Scenario.memo_gone st2.
Proof.
  apply (dead_window_operations Scenario.memo_gone Scenario.memo_checked 0%nat).
  reflexivity.
Defined.

(** C7: the code does not do what the claim says.  With the stale entry of
    handle 1 in the registry, [refresh] closes object 0, deletes its entry,
    and the next step of the iteration over [handlers.values()] raises
    [RuntimeError].  With two stale entries the first is removed and the
    second stays in the registry, its object dead.  With no stale entry
    [refresh] returns and changes nothing. *)
Theorem refresh_raises_on_stale_entry :
  fst (refresh Scenario.memo_gone) = Raise dict_changed_size /\
  handlers (run refresh Scenario.memo_gone) = [(2%Z, 1%nat)] /\
  fst (refresh Scenario.both_gone) = Raise dict_changed_size /\
  handlers (run refresh Scenario.both_gone) = [(2%Z, 1%nat)] /\
  fst (truth 1%nat (run refresh Scenario.both_gone)) = Ok false /\
  fst (refresh Scenario.tracked) = Ok tt /\
  handlers (run refresh Scenario.tracked) = handlers Scenario.tracked.
Proof.
  assert (H1 : refresh Scenario.memo_gone =
               (Raise dict_changed_size, run refresh Scenario.memo_gone))
    by (vm_compute; reflexivity).
  assert (H2 : refresh Scenario.both_gone =
               (Raise dict_changed_size, run refresh Scenario.both_gone))
    by (vm_compute; reflexivity).
  rewrite H1, H2. repeat split; vm_compute; reflexivity.
Qed.

(** C8.  The liveness check of an [Explorer] object is true exactly when the
    core check is (handle registered and enabled) and either [allow_chdir]
    was set or the window text now equals [first_title]. *)
Theorem Explorer_liveness {W : Type} {U : User32 W} {R : Runtime W}
    (st : State W) (self : objid) (ob : obj) (h : Z) (allow : bool) (ft : string) :
  nth_error (heap st) self = Some ob ->
  ob_class ob = CExplorer ->
  _Window__hdlr ob = Some h ->
  _Explorer__allow_chdir ob = Some allow ->
  _Explorer__first_title ob = Some ft ->
  exists b st',
    truth self st = (Ok b, st') /\
    (b = true <->
     (Dict.mem h (handlers st) = true /\ fst (IsWindowEnabled h (world st)) = true) /\
     (allow = true \/
      fst (GetWindowTextW h (snd (IsWindowEnabled h (world st)))) = ft)).
Proof.
  intros Hn Hc Hh Ha Hf.
  assert (Ho : owns st self h) by (exists ob; auto).
  unfold truth. rewrite (bind_Ok _ _ _ _ _ (class_of_eq st self ob Hn)), Hc.
  unfold Explorer_bool. unfold bind at 1.
  rewrite (Window_bool_owns st self h Ho).
  destruct (Dict.mem h (handlers st)).
  2:{ simpl. exists false. eexists. split; [reflexivity |].
      split; [discriminate | intros [[H _] _]; discriminate]. }
  unfold extern at 1. destruct (IsWindowEnabled h (world st)) as [en w1]. simpl.
  destruct en; simpl.
  2:{ exists false. eexists. split; [reflexivity |].
      split; [discriminate | intros [[_ H] _]; discriminate]. }
  set (s1 := mkState (handlers st) (heap st) w1 (trace st ++ [EvIsWindowEnabled h])).
  assert (Hn1 : nth_error (heap s1) self = Some ob) by exact Hn.
  assert (Ho1 : owns s1 self h) by (exists ob; auto).
  unfold allow_chdir, bind at 1, getattr at 1. rewrite Hn1, Ha.
  destruct allow.
  - exists true. eexists. split; [reflexivity |]. tauto.
  - rewrite (bind_Ok _ _ _ _ _ (handler_owns s1 self h Ho1)).
    unfold bind at 1, extern at 1. simpl.
    destruct (GetWindowTextW h w1) as [t w2]. simpl.
    unfold Explorer_first_title, bind, getattr. simpl. rewrite Hn, Hf.
    eexists; eexists. split; [reflexivity |].
    rewrite String.eqb_eq. split.
    + intros ->. split; [split; reflexivity | right; reflexivity].
    + intros [_ [Hd | Heq]]; [discriminate | assumption].
Qed.

Lemma Explorer_liveness_witness :
  exists b st',
    truth 0%nat Scenario.browsing = (Ok b, st') /\
    (b = true <->
     (Dict.mem 1 (handlers Scenario.browsing) = true /\
      fst (IsWindowEnabled 1 (world Scenario.browsing)) = true) /\
     (false = true \/
      fst (GetWindowTextW 1 (snd (IsWindowEnabled 1 (world Scenario.browsing)))) = "docs")).
Proof.
  apply (Explorer_liveness Scenario.browsing 0%nat
           (mkObj CExplorer (Some 1%Z) None (Some false) (Some "docs")) 1%Z false "docs");
    reflexivity.
Defined.

(** C9 as stated fails for the base class.  A plain [Window] that has
    acquired "Memo" holds its handle and nothing else: no first-seen title
    is stored, and reading [first_title] raises [AttributeError]. *)
Lemma plain_window_has_no_first_title :
  Window_new "Memo" 3 Scenario.span (initial Scenario.desk) =
    (Ok 0%nat, Scenario.memo_tracked) /\
  nth_error (heap Scenario.memo_tracked) 0 =
    Some (mkObj CWindow (Some 1%Z) None None None) /\
  first_title 0%nat Scenario.memo_tracked =
    (Raise (AttributeError "first_title"), Scenario.memo_tracked).
Proof. repeat split; reflexivity. Qed.

(** C9, amended.  A successful acquisition stores the handle on the object
    and registers the object under it.  A plain [Window] stores nothing
    else.  A [RecycleBinFolder] holds the fixed first-seen title "ごみ箱",
    an [Explorer] the text that [GetWindowTextW] answers for the handle in
    the state in which [Window.__init__] returned; both can be read through
    [first_title].  No later call, constructor calls included, changes an
    attribute of an object. *)
Theorem acquisition_stores_handle {W : Type} {U : User32 W} {R : Runtime W}
    (st : State W) :
  (forall title ts ss self st',
      Window_new title ts ss st = (Ok self, st') ->
      exists h, h <> 0%Z /\ In (h, self) (handlers st') /\
        nth_error (heap st') self = Some (mkObj CWindow (Some h) None None None) /\
        handler self st' = (Ok h, st')) /\
  (forall ts ss self st',
      RecycleBinFolder_new ts ss st = (Ok self, st') ->
      exists h, h <> 0%Z /\ In (h, self) (handlers st') /\
        handler self st' = (Ok h, st') /\
        first_title self st' = (Ok "ごみ箱", st')) /\
  (forall path allow ts ss kw self st',
      Explorer_new path allow ts ss kw st = (Ok self, st') ->
      exists h t s2 s3,
        Window_init self t ts ss s2 = (Ok tt, s3) /\
        h <> 0%Z /\ In (h, self) (handlers st') /\
        handler self st' = (Ok h, st') /\
        first_title self st' = (Ok (fst (GetWindowTextW h (world s3))), st')) /\
  (forall o ob cs,
      nth_error (heap st) o = Some ob ->
      nth_error (heap (exec_all cs st)) o = Some ob).
Proof.
  split; [| split; [| split]].
  - intros title ts ss self st' H.
    destruct (Window_new_Ok _ _ _ _ _ _ H) as (h & Hnz & Hin & Hn).
    exists h. repeat split; try assumption.
    apply handler_owns. eexists. split; [exact Hn | reflexivity].
  - intros ts ss self st' H.
    destruct (RecycleBinFolder_new_Ok _ _ _ _ _ H) as (h & Hnz & Hin & Hn).
    exists h. repeat split; try assumption.
    + apply handler_owns. eexists. split; [exact Hn | reflexivity].
    + unfold first_title. rewrite (bind_Ok _ _ _ _ _ (class_of_eq _ _ _ Hn)). simpl.
      unfold RecycleBinFolder_first_title, getattr. rewrite Hn. reflexivity.
  - intros path allow ts ss kw self st' H.
    destruct (Explorer_new_Ok _ _ _ _ _ _ _ _ H) as (h & t & s2 & s3 & Hi & Hnz & Hin & Hn).
    exists h, t, s2, s3. repeat split; try assumption.
    + apply handler_owns. eexists. split; [exact Hn | reflexivity].
    + unfold first_title. rewrite (bind_Ok _ _ _ _ _ (class_of_eq _ _ _ Hn)). simpl.
      unfold Explorer_first_title, getattr. rewrite Hn. reflexivity.
  - intros o ob cs. apply exec_all_object.
Qed.

Lemma acquisition_stores_handle_witness :
  exists h t s2 s3,
    Window_init 0%nat t 3 Scenario.span s2 = (Ok tt, s3) /\
    h <> 0%Z /\ In (h, 0%nat) (handlers Scenario.browsing) /\
    handler 0%nat Scenario.browsing = (Ok h, Scenario.browsing) /\
    first_title 0%nat Scenario.browsing =
      (Ok (fst (GetWindowTextW h (world s3))), Scenario.browsing).
Proof.
  apply (proj1 (proj2 (proj2 (acquisition_stores_handle (initial []))))
           "docs" false 3%Z Scenario.span None 0%nat Scenario.browsing).
  reflexivity.
Defined.

(** C10.  [size] first checks liveness.  On a dead object it closes (sleep,
    [WM_CLOSE], the handle taken out of the registry) and returns
    [(-1, -1)], and [GetWindowRect] is not called; on a live object it
    returns [(|left - right|, |top - bottom|)] of the rectangle that
    [GetWindowRect] answers. *)
Theorem size_checks_liveness {W : Type} {U : User32 W} {R : Runtime W}
    (st st1 : State W) (self : objid) (b : bool) :
  truth self st = (Ok b, st1) ->
  exists h, owns st self h /\
    if b then
      exists l t r bt w2,
        GetWindowRect h (world st1) = ((l, t, r, bt), w2) /\
        size self st =
          (Ok (Z.abs (l - r), Z.abs (t - bt)),
           mkState (handlers st1) (heap st1) w2 (trace st1 ++ [EvGetWindowRect h]))
    else
      size self st = (Ok ((-1)%Z, (-1)%Z), closed h st1) /\
      without is_rect st (closed h st1).
Proof.
  intros Ht. destruct b.
  - destruct (truth_Ok _ _ _ _ Ht) as (h & Ho).
    destruct (truth_observes self _ _ _ Ht) as (_ & Hp & _).
    assert (Ho1 : owns st1 self h) by (eapply owns_same_heap; eassumption).
    exists h. split; [assumption |].
    destruct (GetWindowRect h (world st1)) as [[[[l t] r] bt] w2] eqn:E.
    exists l, t, r, bt, w2. split; [reflexivity |].
    unfold size. rewrite (bind_Ok _ _ _ _ _ Ht). simpl.
    unfold rect. unfold bind at 1.
    rewrite (bind_Ok _ _ _ _ _ (handler_owns st1 self h Ho1)).
    unfold extern. rewrite E. reflexivity.
  - destruct (dead_then_closed st self st1 is_rect Ht) as (h & Ho & Ho1 & Hc & Hw);
      try reflexivity.
    { intros [] He; try discriminate; reflexivity. }
    exists h. split; [assumption |]. split; [| assumption].
    unfold size. rewrite (bind_Ok _ _ _ _ _ Ht). simpl.
    rewrite (bind_Ok _ _ _ _ _ Hc). reflexivity.
Qed.

Lemma size_checks_liveness_witness :
  exists h, owns Scenario.memo_gone 0%nat h /\
    size 0%nat Scenario.memo_gone = (Ok ((-1)%Z, (-1)%Z), closed h Scenario.memo_checked) /\
    without is_rect Scenario.memo_gone (closed h Scenario.memo_checked).
Proof.
  apply (size_checks_liveness Scenario.memo_gone Scenario.memo_checked 0%nat false).
  reflexivity.
Defined.

(** * More of [classes.py] *)

(** ** Closing *)

Section Closing.
Context {W : Type} {U : User32 W} {R : Runtime W}.
Implicit Types (st : State W) (self : objid) (h : Z).

Lemma del_filter {V : Type} (k : Z) (d : Dict.t V) :
  Dict.del k d = filter (fun p => negb (Z.eqb k (fst p))) d.
Proof.
  induction d as [| [k' v] d IH]; simpl.
  - reflexivity.
  - destruct (Z.eqb k k'); simpl; rewrite IH; reflexivity.
Qed.

Lemma del_app {V : Type} (k : Z) (d d' : Dict.t V) :
  Dict.del k (d ++ d') = Dict.del k d ++ Dict.del k d'.
Proof. rewrite !del_filter. apply filter_app. Qed.

Lemma close_Ok st self r st' :
  close self st = (Ok r, st') -> exists h, owns st self h.
Proof.
  unfold close. intros H.
  unfold bind at 1, extern_, extern at 1 in H. simpl in H.
  apply bind_inv in H. destruct H as [(h & s1 & H1 & _) | (e & _ & He)]; [| discriminate].
  apply handler_Ok in H1. destruct H1 as [(ob & Hn & Hh) _].
  exists h, ob. split; assumption.
Qed.

Lemma Window_new_self title ts ss st self st' :
  Window_new title ts ss st = (Ok self, st') -> self = List.length (heap st).
Proof.
  unfold Window_new, bind at 1, alloc. intros H.
  apply bind_inv in H. destruct H as [([] & s1 & _ & H) | (e & _ & He)]; [| discriminate].
  inversion H. reflexivity.
Qed.

End Closing.

(** X1.  [close] on an object that has a handle [h] sleeps, sends
    [WM_CLOSE] to [h] and returns the response of [SendMessageW]; afterwards
    the registry holds no item under [h] and every other item as before, in
    the same order, whichever object the item under [h] belonged to; no
    object is changed. *)
Theorem close_removes_own_key {W : Type} {U : User32 W} {R : Runtime W}
    (st : State W) (self : objid) (h : Z) :
  owns st self h ->
  exists st',
    close self st = (Ok (fst (SendMessageW h WM_CLOSE 0 0 (time_sleep (5 # 100) (world st)))), st') /\
    Dict.mem h (handlers st') = false /\
    handlers st' = filter (fun p => negb (Z.eqb h (fst p))) (handlers st) /\
    heap st' = heap st /\
    trace st' = trace st ++ [EvSleep (5 # 100); EvSendMessageW h WM_CLOSE 0 0].
Proof.
  intros Ho. exists (closed h st). split; [apply close_owns; assumption |].
  split; [apply closed_absent |]. split; [apply del_filter |]. split; reflexivity.
Qed.

Lemma close_removes_own_key_witness :
  exists st',
    close 0%nat Scenario.tracked =
      (Ok (fst (SendMessageW 1 WM_CLOSE 0 0 (time_sleep (5 # 100) (world Scenario.tracked)))), st') /\
    Dict.mem 1 (handlers st') = false /\
    handlers st' = filter (fun p => negb (Z.eqb 1 (fst p))) (handlers Scenario.tracked) /\
    heap st' = heap Scenario.tracked /\
    trace st' = trace Scenario.tracked ++ [EvSleep (5 # 100); EvSendMessageW 1 WM_CLOSE 0 0].
Proof.
  apply (close_removes_own_key Scenario.tracked 0%nat 1%Z).
  exists (mkObj CWindow (Some 1%Z) None None None). split; reflexivity.
Defined.

(** X2.  Closing again is harmless for the registry and still talks to the
    OS: a second [close] returns, leaves the registry as the first one left
    it, and sends [WM_CLOSE] once more. *)
Theorem close_twice {W : Type} {U : User32 W} {R : Runtime W}
    (st st1 : State W) (self : objid) (r1 : Z) :
  close self st = (Ok r1, st1) ->
  exists h r2 st2,
    owns st self h /\
    close self st1 = (Ok r2, st2) /\
    handlers st2 = handlers st1 /\
    heap st2 = heap st /\
    trace st2 = trace st1 ++ [EvSleep (5 # 100); EvSendMessageW h WM_CLOSE 0 0].
Proof.
  intros H. destruct (close_Ok _ _ _ _ H) as (h & Ho).
  rewrite (close_owns st self h Ho) in H. inversion H; subst r1 st1; clear H.
  assert (Ho1 : owns (closed h st) self h)
    by (eapply owns_same_heap; [| exact Ho]; reflexivity).
  exists h, (close_response h (closed h st)), (closed h (closed h st)).
  split; [assumption |]. split; [apply close_owns; assumption |].
  split; [| split; reflexivity].
  simpl. apply del_absent. apply mem_del_same.
Qed.

Lemma close_twice_witness :
  exists h r2 st2,
    owns Scenario.tracked 0%nat h /\
    close 0%nat (run (close 0%nat) Scenario.tracked) = (Ok r2, st2) /\
    handlers st2 = handlers (run (close 0%nat) Scenario.tracked) /\
    heap st2 = heap Scenario.tracked /\
    trace st2 = trace (run (close 0%nat) Scenario.tracked) ++
                  [EvSleep (5 # 100); EvSendMessageW h WM_CLOSE 0 0].
Proof.
  apply (close_twice Scenario.tracked (run (close 0%nat) Scenario.tracked) 0%nat 0%Z).
  reflexivity.
Defined.

(** X3.  Construction and [close] undo each other in the registry: in a
    reachable state, a [Window] that has just been constructed and is then
    closed leaves [Window.handlers] exactly as it was before the
    construction. *)
Theorem construct_then_close {W : Type} {U : User32 W} {R : Runtime W}
    (st st1 st2 : State W) (title : string) (ts : Z) (ss : Q) (self : objid) (r : Z) :
  reachable st ->
  Window_new title ts ss st = (Ok self, st1) ->
  close self st1 = (Ok r, st2) ->
  handlers st2 = handlers st.
Proof.
  intros Hr Hnew Hclose.
  pose proof (Window_new_self _ _ _ _ _ _ Hnew) as Hself.
  destruct (Window_new_Ok _ _ _ _ _ _ Hnew) as (h & Hnz & Hin & Hn).
  assert (Ho1 : owns st1 self h) by (eexists; split; [exact Hn | reflexivity]).
  rewrite (close_owns st1 self h Ho1) in Hclose. inversion Hclose; subst r st2.
  pose proof (reachable_registry_ok st Hr) as Hok.
  assert (Hst1 : st1 = exec (CallWindow title ts ss) st)
    by (simpl; unfold run; rewrite Hnew; reflexivity).
  destruct (exec_appends (CallWindow title ts ss) st Hok) as [Hs | (h' & _ & Hm & Ha)];
    rewrite <- Hst1 in *.
  - exfalso. pose proof (subseq_In _ _ _ Hs Hin) as Hold.
    destruct Hok as (_ & Hown). destruct (Hown _ _ Hold) as (ob & Hob & _).
    assert (self < List.length (heap st))%nat by (apply nth_error_Some; congruence).
    lia.
  - assert (h' = h).
    { pose proof (exec_registry_ok (CallWindow title ts ss) st Hok) as Hok1.
      rewrite <- Hst1 in Hok1. destruct Hok1 as (_ & Hown1).
      assert (Hin' : In (h', self) (handlers st1))
        by (rewrite Ha, <- Hself; apply in_or_app; right; left; reflexivity).
      destruct (Hown1 _ _ Hin') as (ob & Hob & Hh).
      rewrite Hn in Hob. inversion Hob; subst ob. simpl in Hh. congruence. }
    subst h'. simpl. rewrite Ha, del_app, (del_absent h (handlers st)) by assumption.
    simpl. rewrite Z.eqb_refl. apply app_nil_r.
Qed.

Lemma construct_then_close_witness :
  handlers (run (close 1%nat) Scenario.tracked) = handlers Scenario.memo_tracked.
Proof.
  apply (construct_then_close Scenario.memo_tracked Scenario.tracked
           (run (close 1%nat) Scenario.tracked) "Calc" 3%Z Scenario.span 1%nat 0%Z).
  - unfold Scenario.memo_tracked. apply reach_exec. apply reach_initial.
  - reflexivity.
  - reflexivity.
Defined.

(** X4.  A [Window] that has just been constructed is registered under the
    handle it stores, so its liveness check is exactly the answer of
    [IsWindowEnabled] for that handle. *)
Theorem fresh_window_liveness {W : Type} {U : User32 W} {R : Runtime W}
    (st st1 : State W) (title : string) (ts : Z) (ss : Q) (self : objid) :
  Window_new title ts ss st = (Ok self, st1) ->
  exists h,
    handler self st1 = (Ok h, st1) /\
    Dict.mem h (handlers st1) = true /\
    truth self st1 = extern (EvIsWindowEnabled h) (IsWindowEnabled h) st1.
Proof.
  intros Hnew.
  destruct (Window_new_Ok _ _ _ _ _ _ Hnew) as (h & Hnz & Hin & Hn).
  assert (Ho1 : owns st1 self h) by (eexists; split; [exact Hn | reflexivity]).
  exists h. split; [apply handler_owns; assumption |].
  pose proof (In_mem _ _ _ Hin) as Hm. split; [assumption |].
  unfold truth. rewrite (bind_Ok _ _ _ _ _ (class_of_eq _ _ _ Hn)). simpl.
  rewrite (Window_bool_owns st1 self h Ho1), Hm. reflexivity.
Qed.

Lemma fresh_window_liveness_witness :
  exists h,
    handler 0%nat Scenario.memo_tracked = (Ok h, Scenario.memo_tracked) /\
    Dict.mem h (handlers Scenario.memo_tracked) = true /\
    truth 0%nat Scenario.memo_tracked =
      extern (EvIsWindowEnabled h) (IsWindowEnabled h) Scenario.memo_tracked.
Proof.
  apply (fresh_window_liveness (initial Scenario.desk) Scenario.memo_tracked
           "Memo" 3%Z Scenario.span 0%nat).
  reflexivity.
Defined.

(** ** Polling until the window is there *)

Section Appears.
Context {W : Type} {U : User32 W} {R : Runtime W}.
Implicit Types (st : State W) (self : objid) (h : Z).

Lemma no_match_heap title st st' :
  no_match title st st' -> heap st' = heap st /\ subseq (handlers st') (handlers st).
Proof.
  intros [s Hf | s s' Hf Hm Hr Hm'].
  - split; [reflexivity | apply subseq_refl].
  - destruct (refresh_shrinks _ _ _ Hr) as (Hp & Hs). split; assumption.
Qed.

Lemma exhausted_heap title span k st s1 :
  exhausted title span k st s1 -> heap s1 = heap st.
Proof.
  induction 1 as [st | n st s1 st' Hnm Hex IH]; [reflexivity |].
  destruct (no_match_heap _ _ _ Hnm) as (Hp & _). rewrite IH, Hp. reflexivity.
Qed.

Lemma exhausted_prefix self title span k n st s1 :
  exhausted title span k st s1 ->
  poll self title span (k + n) st = poll self title span n s1.
Proof.
  induction 1 as [st | k st s1 st' Hnm Hex IH]; [reflexivity |].
  simpl. unfold bind at 1, extern_, extern. simpl. fold (ticked span st).
  rewrite (bind_Ok _ _ _ _ _ (no_match_attempt self title _ _ Hnm)).
  exact IH.
Qed.


End Appears.

(** X5.  Polling goes on until the window is there.  When the first [k]
    control points end in a non-match and at the next one a window with the
    title is found whose handle is not registered, [Window.__init__]
    returns at once: without reconciliation, without using the control
    points that are left, with the handle stored on the object and the
    object put at the end of the registry. *)
Theorem window_claimed_when_it_appears {W : Type} {U : User32 W} {R : Runtime W}
    (st s1 : State W) (self : objid) (ob : obj) (title : string) (ts : Z) (ss : Q)
    (k m : nat) (h : Z) :
  nth_error (heap st) self = Some ob ->
  wiggle_begin ts ss (world st) = (k + S m)%nat ->
  exhausted title ss k st s1 ->
  found title (ticked ss s1) = h ->
  h <> 0%Z ->
  Dict.mem h (handlers s1) = false ->
  exists st',
    Window_init self title ts ss st = (Ok tt, st') /\
    handlers st' = handlers s1 ++ [(h, self)] /\
    nth_error (heap st') self = Some (set_hdlr h ob) /\
    trace st' = trace s1 ++ [EvTimer; EvFindWindowExW title].
Proof.
  intros Hn Hw Hex Hf Hnz Hm.
  unfold Window_init, bind at 1. rewrite Hw.
  rewrite (exhausted_prefix self title ss k (S m) st s1 Hex).
  simpl. unfold bind at 1, extern_, extern at 1. simpl. fold (ticked ss s1).
  assert (Hnz' : found title (ticked ss s1) <> 0%Z) by congruence.
  assert (Hm' : Dict.mem (found title (ticked ss s1)) (handlers (ticked ss s1)) = false)
    by (rewrite Hf; exact Hm).
  unfold bind at 1. rewrite (attempt_found_free self title _ Hnz' Hm').
  rewrite Hf. unfold bind, setitem, setattr, ret. simpl.
  rewrite (exhausted_heap _ _ _ _ _ Hex), Hn.
  eexists. split; [reflexivity |]. simpl.
  split; [apply set_absent; assumption |].
  split; [eapply nth_error_set; exact Hn |].
  rewrite <- app_assoc. reflexivity.
Qed.

Lemma window_claimed_when_it_appears_witness :
  exists st',
    Window_init 0%nat "Memo" 3 Scenario.span (allocated CWindow (initial Scenario.desk)) =
      (Ok tt, st') /\
    handlers st' = handlers (allocated CWindow (initial Scenario.desk)) ++ [(1%Z, 0%nat)] /\
    nth_error (heap st') 0 = Some (set_hdlr 1 (new_obj CWindow)) /\
    trace st' = trace (allocated CWindow (initial Scenario.desk)) ++
                  [EvTimer; EvFindWindowExW "Memo"].
Proof.
  apply (window_claimed_when_it_appears
           (allocated CWindow (initial Scenario.desk))
           (allocated CWindow (initial Scenario.desk))
           0%nat (new_obj CWindow) "Memo" 3%Z Scenario.span 0%nat 2%nat 1%Z).
  - reflexivity.
  - reflexivity.
  - apply exhausted_O.
  - reflexivity.
  - discriminate.
  - reflexivity.
Defined.

(** X6.  The liveness check of a [RecycleBinFolder] object is true exactly
    when the core check is (handle registered and enabled) and the window
    text now equals the object's [first_title]. *)
Theorem RecycleBinFolder_liveness {W : Type} {U : User32 W} {R : Runtime W}
    (st : State W) (self : objid) (ob : obj) (h : Z) (ft : string) :
  nth_error (heap st) self = Some ob ->
  ob_class ob = CRecycleBinFolder ->
  _Window__hdlr ob = Some h ->
  _RecycleBinFolder__first_title ob = Some ft ->
  exists b st',
    truth self st = (Ok b, st') /\
    (b = true <->
     Dict.mem h (handlers st) = true /\
     fst (IsWindowEnabled h (world st)) = true /\
     fst (GetWindowTextW h (snd (IsWindowEnabled h (world st)))) = ft).
Proof.
  intros Hn Hc Hh Hf.
  assert (Ho : owns st self h) by (exists ob; auto).
  unfold truth. rewrite (bind_Ok _ _ _ _ _ (class_of_eq st self ob Hn)), Hc.
  unfold RecycleBinFolder_bool. unfold bind at 1.
  rewrite (Window_bool_owns st self h Ho).
  destruct (Dict.mem h (handlers st)).
  2:{ simpl. exists false. eexists. split; [reflexivity |].
      split; [discriminate | intros [H _]; discriminate]. }
  unfold extern at 1. destruct (IsWindowEnabled h (world st)) as [en w1]. simpl.
  destruct en; simpl.
  2:{ exists false. eexists. split; [reflexivity |].
      split; [discriminate | intros [_ [H _]]; discriminate]. }
  set (s1 := mkState (handlers st) (heap st) w1 (trace st ++ [EvIsWindowEnabled h])).
  assert (Ho1 : owns s1 self h) by (exists ob; auto).
  rewrite (bind_Ok _ _ _ _ _ (handler_owns s1 self h Ho1)).
  unfold bind at 1, extern at 1. simpl.
  destruct (GetWindowTextW h w1) as [t w2]. simpl.
  unfold RecycleBinFolder_first_title, bind, getattr. simpl. rewrite Hn, Hf.
  eexists; eexists. split; [reflexivity |].
  rewrite String.eqb_eq. split.
  - intros ->. repeat split.
  - intros (_ & _ & Heq). assumption.
Qed.

Lemma RecycleBinFolder_liveness_witness :
  exists b st',
    truth 0%nat (exec (CallRecycleBinFolder 3 Scenario.span) (initial ([] : Desktop.t))) = (Ok b, st') /\
    (b = true <->
     Dict.mem 1 (handlers (exec (CallRecycleBinFolder 3 Scenario.span) (initial ([] : Desktop.t)))) = true /\
     fst (IsWindowEnabled 1
            (world (exec (CallRecycleBinFolder 3 Scenario.span) (initial ([] : Desktop.t))))) = true /\
     fst (GetWindowTextW 1
            (snd (IsWindowEnabled 1
                    (world (exec (CallRecycleBinFolder 3 Scenario.span) (initial ([] : Desktop.t)))))))
       = "ごみ箱").
Proof.
  apply (RecycleBinFolder_liveness
           (exec (CallRecycleBinFolder 3 Scenario.span) (initial ([] : Desktop.t))) 0%nat
           (mkObj CRecycleBinFolder (Some 1%Z) (Some "ごみ箱") None None) 1%Z "ごみ箱");
    reflexivity.
Defined.

(** X7.  [Explorer] with a path that the validation refuses raises the
    validation error before anything else happens: no process is launched,
    no window is looked for, the registry is untouched. *)
Theorem Explorer_rejects_invalid_path {W : Type} {U : User32 W} {R : Runtime W}
    (st : State W) (path : string) (allow : bool) (ts : Z) (ss : Q)
    (title_kw : option string) :
  CPath_validate path (world st) = None ->
  Explorer_new path allow ts ss title_kw st =
    (Raise (ValidationError path),
     mkState (handlers st) (heap st ++ [new_obj CExplorer]) (world st)
             (trace st ++ [EvValidate path])).
Proof.
  intros Hv. unfold Explorer_new, bind at 1, alloc. simpl.
  unfold Explorer_init, bind at 1. unfold bind at 1, extern at 1. simpl.
  rewrite Hv. reflexivity.
Qed.

Lemma Explorer_rejects_invalid_path_witness :
  Explorer_new "" false 3 Scenario.span None Scenario.tracked =
    (Raise (ValidationError ""),
     mkState (handlers Scenario.tracked) (heap Scenario.tracked ++ [new_obj CExplorer])
             (world Scenario.tracked) (trace Scenario.tracked ++ [EvValidate ""])).
Proof.
  apply (Explorer_rejects_invalid_path Scenario.tracked "" false 3%Z Scenario.span None).
  reflexivity.
Defined.



(** X9.  A liveness check is read-only, whatever the class of the object
    and however it ends: the registry and the objects are the same
    afterwards, and all it has done outside is to ask [IsWindowEnabled] and
    [GetWindowTextW]. *)
Theorem liveness_check_is_read_only {W : Type} {U : User32 W} {R : Runtime W}
    (st : State W) (self : objid) :
  handlers (run (truth self) st) = handlers st /\
  heap (run (truth self) st) = heap st /\
  exists evs,
    trace (run (truth self) st) = trace st ++ evs /\
    forallb is_query evs = true.
Proof.
  unfold run. destruct (truth self st) as [r st'] eqn:E. simpl.
  exact (truth_observes self _ _ _ E).
Qed.

(** X10.  Only constructors register: a method call or a property read on
    any object, and any change of the outside world, leaves every attribute
    of every object as it is and adds no item to the registry (items can
    only go). *)
Theorem methods_never_register {W : Type} {U : User32 W} {R : Runtime W}
    (st : State W) (c : call W) :
  is_method c = true ->
  heap (exec c st) = heap st /\
  subseq (handlers (exec c st)) (handlers st) /\
  (forall h, Dict.mem h (handlers st) = false ->
             Dict.mem h (handlers (exec c st)) = false).
Proof.
  intros Hm. destruct (exec_method_shrinks c st Hm) as (Hp & Hs).
  split; [assumption |]. split; [assumption |].
  intros h. apply subseq_mem_false. assumption.
Qed.

Lemma methods_never_register_witness :
  heap (exec (CallSetPosition 0%nat 10 10) Scenario.memo_gone) = heap Scenario.memo_gone /\
  subseq (handlers (exec (CallSetPosition 0%nat 10 10) Scenario.memo_gone))
         (handlers Scenario.memo_gone) /\
  (forall h, Dict.mem h (handlers Scenario.memo_gone) = false ->
             Dict.mem h (handlers (exec (CallSetPosition 0%nat 10 10) Scenario.memo_gone))
               = false).
Proof.
  apply (methods_never_register Scenario.memo_gone (CallSetPosition 0%nat 10 10)).
  reflexivity.
Defined.

(** X11.  In a reachable state [refresh] cannot take an item out of the
    registry and return: when it returns, registry and objects are what
    they were; when it has deleted an item, it has raised. *)
Theorem refresh_returns_only_unchanged {W : Type} {U : User32 W} {R : Runtime W}
    (st st' : State W) (r : result unit) :
  reachable st ->
  refresh st = (r, st') ->
  (r = Ok tt -> handlers st' = handlers st /\ heap st' = heap st) /\
  (handlers st' <> handlers st -> exists e, r = Raise e).
Proof.
  intros Hr H. pose proof (reachable_registry_ok st Hr) as Hok.
  assert (HOk : r = Ok tt -> handlers st' = handlers st /\ heap st' = heap st).
  { intros ->. eapply refresh_Ok_unchanged; eassumption. }
  split; [exact HOk |].
  intros Hne. destruct r as [[] | e]; [| exists e; reflexivity].
  destruct (HOk eq_refl) as (Hh & _). contradiction.
Qed.

Lemma refresh_returns_only_unchanged_witness :
  (Raise dict_changed_size = Ok tt ->
   handlers (run refresh Scenario.memo_gone) = handlers Scenario.memo_gone /\
   heap (run refresh Scenario.memo_gone) = heap Scenario.memo_gone) /\
  (handlers (run refresh Scenario.memo_gone) <> handlers Scenario.memo_gone ->
   exists e, Raise dict_changed_size = Raise e :> result unit).
Proof.
  apply (refresh_returns_only_unchanged Scenario.memo_gone
           (run refresh Scenario.memo_gone) (Raise dict_changed_size)).
  - unfold Scenario.memo_gone, Scenario.tracked.
    apply reach_exec. apply reachable_exec_all. apply reach_initial.
  - reflexivity.
Defined.



(** ** Moving and resizing a live window *)

Section Live.
Context {W : Type} {U : User32 W} {R : Runtime W}.
Implicit Types (st : State W) (self : objid) (h : Z).

(** The state after [GetWindowRect] has been asked about [h]. *)
Definition after_rect (h : Z) (st : State W) : State W :=
  mkState (handlers st) (heap st) (snd (GetWindowRect h (world st)))
          (trace st ++ [EvGetWindowRect h]).

Lemma rect_owns st self h :
  owns st self h -> rect self st = (Ok (fst (GetWindowRect h (world st))), after_rect h st).
Proof.
  intros Ho. unfold rect. rewrite (bind_Ok _ _ _ _ _ (handler_owns st self h Ho)).
  unfold extern, after_rect. destruct (GetWindowRect h (world st)). reflexivity.
Qed.

Lemma truth_true_owns st self s1 h :
  truth self st = (Ok true, s1) -> owns st self h -> owns s1 self h.
Proof.
  intros Ht Ho. destruct (truth_observes self _ _ _ Ht) as (_ & Hp & _).
  eapply owns_same_heap; eassumption.
Qed.

Lemma owns_unique st self h h' : owns st self h -> owns st self h' -> h = h'.
Proof. intros (ob & Hn & Hh) (ob' & Hn' & Hh'). congruence. Qed.

Lemma size_live st self s1 h :
  truth self st = (Ok true, s1) -> owns st self h ->
  size self st =
    (let '(l, t, r, bt) := fst (GetWindowRect h (world s1)) in
     Ok (Z.abs (l - r), Z.abs (t - bt)), after_rect h s1).
Proof.
  intros Ht Ho. unfold size. rewrite (bind_Ok _ _ _ _ _ Ht). simpl.
  rewrite (bind_Ok _ _ _ _ _ (rect_owns s1 self h (truth_true_owns _ _ _ _ Ht Ho))).
  destruct (fst (GetWindowRect h (world s1))) as [[[l t] r] bt]. reflexivity.
Qed.

Lemma size_dead st self s1 h :
  truth self st = (Ok false, s1) -> owns st self h ->
  size self st = (Ok ((-1)%Z, (-1)%Z), closed h s1).
Proof.
  intros Ht Ho. unfold size. rewrite (bind_Ok _ _ _ _ _ Ht). simpl.
  destruct (truth_observes self _ _ _ Ht) as (_ & Hp & _).
  assert (Ho1 : owns s1 self h) by (eapply owns_same_heap; eassumption).
  rewrite (bind_Ok _ _ _ _ _ (close_owns s1 self h Ho1)). reflexivity.
Qed.

End Live.

(** X13.  [set_position] on a live object checks liveness a second time,
    inside [size].  When the object is still alive, [MoveWindow] gets the
    new position and the current width and height, taken from
    [GetWindowRect].  When the window has died between the two checks the
    object is closed by [size], and [MoveWindow] is called all the same,
    with width and height [-1]; what [set_position] returns is the answer
    of that call. *)
Theorem set_position_checks_twice {W : Type} {U : User32 W} {R : Runtime W}
    (st s1 s2 : State W) (self : objid) (b : bool) (x y : Z) :
  truth self st = (Ok true, s1) ->
  truth self s1 = (Ok b, s2) ->
  exists h, owns st self h /\
    if b then
      exists l t r bt,
        fst (GetWindowRect h (world s2)) = (l, t, r, bt) /\
        set_position self x y st =
          extern (EvMoveWindow h x y (Z.abs (l - r)) (Z.abs (t - bt)))
                 (MoveWindow h x y (Z.abs (l - r)) (Z.abs (t - bt)) true)
                 (after_rect h s2)
    else
      set_position self x y st =
        extern (EvMoveWindow h x y (-1) (-1)) (MoveWindow h x y (-1) (-1) true)
               (closed h s2).
Proof.
  intros Ht1 Ht2. destruct (truth_Ok _ _ _ _ Ht1) as (h & Ho).
  pose proof (truth_true_owns _ _ _ _ Ht1 Ho) as Ho1.
  destruct (truth_observes self _ _ _ Ht2) as (_ & Hp2 & _).
  assert (Ho2 : owns s2 self h) by (eapply owns_same_heap; eassumption).
  exists h. split; [assumption |].
  unfold set_position. rewrite (bind_Ok _ _ _ _ _ Ht1). simpl.
  destruct b.
  - destruct (fst (GetWindowRect h (world s2))) as [[[l t] r] bt] eqn:E.
    exists l, t, r, bt. split; [reflexivity |].
    pose proof (size_live s1 self s2 h Ht2 Ho1) as Hs. rewrite E in Hs.
    rewrite (bind_Ok _ _ _ _ _ Hs).
    assert (Ho3 : owns (after_rect h s2) self h)
      by (eapply owns_same_heap; [| exact Ho2]; reflexivity).
    rewrite (bind_Ok _ _ _ _ _ (handler_owns _ self h Ho3)). reflexivity.
  - rewrite (bind_Ok _ _ _ _ _ (size_dead s1 self s2 h Ht2 Ho1)).
    assert (Ho3 : owns (closed h s2) self h)
      by (eapply owns_same_heap; [| exact Ho2]; reflexivity).
    rewrite (bind_Ok _ _ _ _ _ (handler_owns _ self h Ho3)). reflexivity.
Qed.

Lemma set_position_checks_twice_witness :
  exists h, owns Scenario.tracked 0%nat h /\
    exists l t r bt,
      fst (GetWindowRect h (world (run (truth 0%nat) (run (truth 0%nat) Scenario.tracked))))
        = (l, t, r, bt) /\
      set_position 0%nat 30 40 Scenario.tracked =
        extern (EvMoveWindow h 30 40 (Z.abs (l - r)) (Z.abs (t - bt)))
               (MoveWindow h 30 40 (Z.abs (l - r)) (Z.abs (t - bt)) true)
               (after_rect h (run (truth 0%nat) (run (truth 0%nat) Scenario.tracked))).
Proof.
  apply (set_position_checks_twice Scenario.tracked
           (run (truth 0%nat) Scenario.tracked)
           (run (truth 0%nat) (run (truth 0%nat) Scenario.tracked))
           0%nat true 30%Z 40%Z); reflexivity.
Defined.

(** X14.  On a live object [move_window] hands its arguments to
    [MoveWindow] as they are, and [set_size] hands over the new size with
    the current left and top of [GetWindowRect]; both return the answer of
    [MoveWindow], with repaint set, and neither closes anything or touches
    the registry. *)
Theorem live_window_is_moved {W : Type} {U : User32 W} {R : Runtime W}
    (st s1 : State W) (self : objid) :
  truth self st = (Ok true, s1) ->
  exists h, owns st self h /\
    handlers s1 = handlers st /\
    (forall x y n_width n_height,
        move_window self x y n_width n_height st =
          extern (EvMoveWindow h x y n_width n_height)
                 (MoveWindow h x y n_width n_height true) s1) /\
    (forall width height,
        exists l t r bt,
          fst (GetWindowRect h (world s1)) = (l, t, r, bt) /\
          set_size self width height st =
            extern (EvMoveWindow h l t width height)
                   (MoveWindow h l t width height true) (after_rect h s1)).
Proof.
  intros Ht. destruct (truth_Ok _ _ _ _ Ht) as (h & Ho).
  pose proof (truth_true_owns _ _ _ _ Ht Ho) as Ho1.
  destruct (truth_observes self _ _ _ Ht) as (Hh & _ & _).
  exists h. split; [assumption |]. split; [assumption |]. split.
  - intros x y n_width n_height. unfold move_window.
    rewrite (bind_Ok _ _ _ _ _ Ht). simpl.
    rewrite (bind_Ok _ _ _ _ _ (handler_owns s1 self h Ho1)). reflexivity.
  - intros width height.
    destruct (fst (GetWindowRect h (world s1))) as [[[l t] r] bt] eqn:E.
    exists l, t, r, bt. split; [reflexivity |].
    unfold set_size. rewrite (bind_Ok _ _ _ _ _ Ht). simpl.
    pose proof (rect_owns s1 self h Ho1) as Hr. rewrite E in Hr.
    rewrite (bind_Ok _ _ _ _ _ Hr).
    assert (Ho3 : owns (after_rect h s1) self h)
      by (eapply owns_same_heap; [| exact Ho1]; reflexivity).
    rewrite (bind_Ok _ _ _ _ _ (handler_owns _ self h Ho3)). reflexivity.
Qed.

Lemma live_window_is_moved_witness :
  exists h, owns Scenario.tracked 0%nat h /\
    handlers (run (truth 0%nat) Scenario.tracked) = handlers Scenario.tracked /\
    (forall x y n_width n_height,
        move_window 0%nat x y n_width n_height Scenario.tracked =
          extern (EvMoveWindow h x y n_width n_height)
                 (MoveWindow h x y n_width n_height true)
                 (run (truth 0%nat) Scenario.tracked)) /\
    (forall width height,
        exists l t r bt,
          fst (GetWindowRect h (world (run (truth 0%nat) Scenario.tracked))) = (l, t, r, bt) /\
          set_size 0%nat width height Scenario.tracked =
            extern (EvMoveWindow h l t width height)
                   (MoveWindow h l t width height true)
                   (after_rect h (run (truth 0%nat) Scenario.tracked))).
Proof.
  apply (live_window_is_moved Scenario.tracked (run (truth 0%nat) Scenario.tracked) 0%nat).
  reflexivity.
Defined.

(** X15.  The result of [size] tells a dead object from a live one: a
    result [(-1, -1)] comes from a liveness check that was false, any other
    result has both components non-negative and comes from a liveness
    check that was true. *)
Theorem size_sentinel_is_unambiguous {W : Type} {U : User32 W} {R : Runtime W}
    (st st' : State W) (self : objid) (w ht : Z) :
  size self st = (Ok (w, ht), st') ->
  (fst (truth self st) = Ok false /\ w = (-1)%Z /\ ht = (-1)%Z) \/
  (fst (truth self st) = Ok true /\ (0 <= w)%Z /\ (0 <= ht)%Z).
Proof.
  intros H.
  assert (Hb : exists b s1, truth self st = (Ok b, s1)).
  { unfold size in H. apply bind_inv in H.
    destruct H as [(b & s1 & Ht & _) | (e & _ & He)]; [| discriminate].
    exists b, s1. assumption. }
  destruct Hb as (b & s1 & Ht). destruct (truth_Ok _ _ _ _ Ht) as (h & Ho).
  rewrite Ht. simpl. destruct b.
  - right. rewrite (size_live st self s1 h Ht Ho) in H.
    destruct (fst (GetWindowRect h (world s1))) as [[[l t] r] bt].
    inversion H; subst. split; [reflexivity |]. split; apply Z.abs_nonneg.
  - left. rewrite (size_dead st self s1 h Ht Ho) in H. inversion H; subst.
    repeat split.
Qed.

Lemma size_sentinel_is_unambiguous_witness :
  (fst (truth 0%nat Scenario.tracked) = Ok false /\ 800%Z = (-1)%Z /\ 600%Z = (-1)%Z) \/
  (fst (truth 0%nat Scenario.tracked) = Ok true /\ (0 <= 800)%Z /\ (0 <= 600)%Z).
Proof.
  apply (size_sentinel_is_unambiguous Scenario.tracked
           (run (size 0%nat) Scenario.tracked) 0%nat 800%Z 600%Z).
  reflexivity.
Defined.

(** ** Waiting for a window to close *)

Section Joining.
Context {W : Type} {U : User32 W} {R : Runtime W}.
Implicit Types (st : State W) (self : objid) (h : Z).

Lemma sleep_same span st :
  extern_ (EvSleep span) (time_sleep span) st =
    (Ok tt, mkState (handlers st) (heap st) (time_sleep span (world st))
                    (trace st ++ [EvSleep span])).
Proof. reflexivity. Qed.

(** The loop of [join] touches neither registry nor objects; when it ends,
    it ends on a liveness check that was false. *)
Lemma join_loop_Ok fuel self span st o s1 :
  join_loop fuel self span st = (Ok o, s1) ->
  handlers s1 = handlers st /\ heap s1 = heap st /\
  (o = Some tt ->
   exists s0, heap s0 = heap st /\ truth self s0 = (Ok false, s1)).
Proof.
  revert st. induction fuel as [| n IH]; intros st H; simpl in H.
  - inversion H; subst. repeat split. discriminate.
  - apply bind_inv in H. destruct H as [(b & sa & Ht & H) | (e & _ & He)]; [| discriminate].
    destruct (truth_observes self _ _ _ Ht) as (Hh & Hp & _).
    destruct b.
    + rewrite (bind_Ok _ _ _ _ _ (sleep_same span sa)) in H.
      destruct (IH _ H) as (Hh' & Hp' & Hlast). simpl in Hh', Hp'.
      split; [congruence |]. split; [congruence |].
      intros Ho. destruct (Hlast Ho) as (s0 & Hs0 & Hts0).
      exists s0. split; [simpl in Hs0; congruence | exact Hts0].
    + inversion H; subst. split; [assumption |]. split; [assumption |].
      intros _. exists st. split; [reflexivity | exact Ht].
Qed.

End Joining.

(** X16.  [join] never changes an object.  When it returns, the object is
    dead and cleaned up: the loop ended on a liveness check that was false,
    [close] has run, the registry is the one [join] started with less the
    item of the object's handle, and a liveness check made now is false.
    As long as the loop has not ended, the registry is untouched. *)
Theorem join_returns_dead {W : Type} {U : User32 W} {R : Runtime W}
    (st st' : State W) (fuel : nat) (self : objid) (span : Q) (o : option unit) :
  join fuel self span st = (Ok o, st') ->
  heap st' = heap st /\
  match o with
  | Some _ =>
      exists h, owns st self h /\
        handlers st' = Dict.del h (handlers st) /\
        Dict.mem h (handlers st') = false /\
        truth self st' = (Ok false, st')
  | None => handlers st' = handlers st
  end.
Proof.
  unfold join. intros H.
  apply bind_inv in H. destruct H as [(o1 & s1 & Hl & H) | (e & _ & He)]; [| discriminate].
  destruct (join_loop_Ok _ _ _ _ _ _ Hl) as (Hh & Hp & Hlast).
  destruct o1 as [[] |].
  - destruct (Hlast eq_refl) as (s0 & Hs0 & Ht0).
    destruct (truth_Ok _ _ _ _ Ht0) as (h & Ho0).
    assert (Ho : owns st self h) by (eapply owns_same_heap; [| exact Ho0]; congruence).
    assert (Ho1 : owns s1 self h) by (eapply owns_same_heap; [| exact Ho]; congruence).
    rewrite (bind_Ok _ _ _ _ _ (close_owns s1 self h Ho1)) in H.
    inversion H; subst o st'. split; [exact Hp |].
    exists h. split; [exact Ho |]. split; [simpl; rewrite Hh; reflexivity |].
    split; [apply closed_absent | apply closed_still_dead; exact Ho1].
  - inversion H; subst. split; assumption.
Qed.

Lemma join_returns_dead_witness :
  heap (run (join 5 0%nat Scenario.span) Scenario.memo_gone) = heap Scenario.memo_gone /\
  exists h, owns Scenario.memo_gone 0%nat h /\
    handlers (run (join 5 0%nat Scenario.span) Scenario.memo_gone) =
      Dict.del h (handlers Scenario.memo_gone) /\
    Dict.mem h (handlers (run (join 5 0%nat Scenario.span) Scenario.memo_gone)) = false /\
    truth 0%nat (run (join 5 0%nat Scenario.span) Scenario.memo_gone) =
      (Ok false, run (join 5 0%nat Scenario.span) Scenario.memo_gone).
Proof.
  apply (join_returns_dead Scenario.memo_gone
           (run (join 5 0%nat Scenario.span) Scenario.memo_gone)
           5%nat 0%nat Scenario.span (Some tt)).
  reflexivity.
Defined.

(** An outside world in which nothing ever changes: one window, handle 1,
    always enabled. *)
Module Frozen.

#[global] Instance user32 : User32 unit := {
  FindWindowExW _ _ _ _ w := (1%Z, w);
  IsWindowEnabled _ w := (true, w);
  SendMessageW _ _ _ _ w := (0%Z, w);
  MoveWindow _ _ _ _ _ _ w := (true, w);
  GetWindowRect _ w := ((0, 0, 1, 1)%Z, w);
  GetWindowTextW _ w := ("w"%string, w)
}.

#[global] Instance runtime : Runtime unit := {
  time_sleep _ w := w;
  wiggle_begin _ _ _ := 1%nat;
  wiggle_next _ w := w;
  Popen_wait _ w := w;
  CPath_validate path _ := Some path;
  Path_name path := path
}.

(** Its window, tracked by object 0. *)
Definition tracked : State unit :=
  exec (CallWindow "w" 1 (5 # 100)) (initial tt).

End Frozen.



(** ** Printing *)

From Stdlib Require Import DecimalString.

(** [str] of an integer: its decimal digits, with a minus sign when it is
    negative. *)
Definition str_int (z : Z) : string := NilZero.string_of_int (Z.to_int z).

Section Printing.
Context {W : Type} {U : User32 W} {R : Runtime W}.

(** [Window.__str__]: [f'{self.handler}: {self.title}(Window)']. *)
Definition Window_str (self : objid) : M W string :=
  h <- handler self ;;
  t <- title self ;;
  ret (str_int h ++ ": " ++ t ++ "(Window)")%string.

(** [Explorer.__str__]: [f'{self.handler}: {self.first_title}(Explorer)']. *)
Definition Explorer_str (self : objid) : M W string :=
  h <- handler self ;;
  ft <- Explorer_first_title self ;;
  ret (str_int h ++ ": " ++ ft ++ "(Explorer)")%string.

(** [str(obj)]: the [__str__] of the object's class; [RecycleBinFolder] has
    none of its own and inherits the one of [Window]. *)
Definition str (self : objid) : M W string :=
  c <- class_of self ;;
  match c with
  | CWindow | CRecycleBinFolder => Window_str self
  | CExplorer => Explorer_str self
  end.

End Printing.

(** X18.  The text of an [Explorer] is fixed at construction: [str] puts
    together the handle in decimal, the first-seen title and "(Explorer)"
    without asking the OS, so it is the same after any later calls and
    changes of the outside world, also when the window has been renamed or
    closed. *)
Theorem Explorer_str_is_stable {W : Type} {U : User32 W} {R : Runtime W}
    (st : State W) (self : objid) (ob : obj) (h : Z) (ft : string) (cs : list (call W)) :
  nth_error (heap st) self = Some ob ->
  ob_class ob = CExplorer ->
  _Window__hdlr ob = Some h ->
  _Explorer__first_title ob = Some ft ->
  str self (exec_all cs st) =
    (Ok (str_int h ++ ": " ++ ft ++ "(Explorer)")%string, exec_all cs st).
Proof.
  intros Hn Hc Hh Hf.
  pose proof (exec_all_object cs st self ob Hn) as Hn'.
  unfold str. rewrite (bind_Ok _ _ _ _ _ (class_of_eq _ self ob Hn')), Hc.
  unfold Explorer_str.
  assert (Ho : owns (exec_all cs st) self h) by (exists ob; auto).
  rewrite (bind_Ok _ _ _ _ _ (handler_owns _ self h Ho)).
  unfold Explorer_first_title, bind, getattr. rewrite Hn', Hf. reflexivity.
Qed.

Lemma Explorer_str_is_stable_witness :
  str 0%nat (exec_all [CallOutside (Desktop.rename 1 "elsewhere"); CallClose 0%nat]
                      Scenario.browsing) =
    (Ok (str_int 1 ++ ": " ++ "docs" ++ "(Explorer)")%string,
     exec_all [CallOutside (Desktop.rename 1 "elsewhere"); CallClose 0%nat]
              Scenario.browsing).
Proof.
  apply (Explorer_str_is_stable Scenario.browsing 0%nat
           (mkObj CExplorer (Some 1%Z) None (Some false) (Some "docs")) 1%Z "docs"
           [CallOutside (Desktop.rename 1 "elsewhere"); CallClose 0%nat]);
    reflexivity.
Defined.



Lemma for_values_step {W : Type} {U : User32 W} {R : Runtime W}
    (body : objid -> M W unit) (used pos n : nat) (st : State W) (k : Z) (wd : objid) :
  List.length (handlers st) = used ->
  nth_error (handlers st) pos = Some (k, wd) ->
  for_values body used pos (S n) st =
    (body wd ;; for_values body used (S pos) n) st.
Proof.
  intros Hlen Hnth. simpl. unfold bind at 1, get_handlers at 1.
  rewrite (proj2 (Nat.eqb_eq _ _) Hlen). simpl. rewrite Hnth. reflexivity.
Qed.

(** X20.  In a reachable state whose first registry item belongs to an
    object that fails its liveness check, [refresh] closes that object,
    deletes its item and raises [RuntimeError]: the size of the dict has
    changed under the iteration.  The items after it are not examined and
    stay as they are. *)
Theorem refresh_stops_at_first_stale_item {W : Type} {U : User32 W} {R : Runtime W}
    (st s1 : State W) (h : Z) (wd : objid) (rest : Dict.t objid) :
  reachable st ->
  handlers st = (h, wd) :: rest ->
  truth wd (mkState (handlers st) (heap st) (world st) (trace st ++ [EvRefresh]))
    = (Ok false, s1) ->
  refresh st = (Raise dict_changed_size, closed h s1) /\
  handlers (closed h s1) = rest.
Proof.
  intros Hr Hhs Ht.
  destruct (reachable_registry_ok st Hr) as (Hnd & Hown).
  destruct (truth_observes wd _ _ _ Ht) as (Hh1 & Hp1 & _). simpl in Hh1, Hp1.
  assert (Ho : owns st wd h) by (apply Hown; rewrite Hhs; left; reflexivity).
  assert (Ho1 : owns s1 wd h) by (eapply owns_same_heap; [exact Hp1 | exact Ho]).
  assert (Hrest : Dict.del h (handlers s1) = rest).
  { rewrite Hh1, Hhs. simpl. rewrite Z.eqb_refl. apply del_absent.
    rewrite Hhs in Hnd. simpl in Hnd. inversion Hnd; subst.
    apply mem_false_keys. assumption. }
  split; [| exact Hrest].
  set (s0 := mkState (handlers st) (heap st) (world st) (trace st ++ [EvRefresh])) in *.
  assert (Hlen : List.length (handlers st) = S (List.length rest))
    by (rewrite Hhs; reflexivity).
  assert (Hrf : refresh st =
                for_values refresh_one (S (List.length rest)) 0 (S (List.length rest)) s0)
    by (unfold refresh, bind, log, get_handlers; simpl; rewrite Hlen; reflexivity).
  rewrite Hrf.
  rewrite (for_values_step refresh_one _ 0 _ s0 h wd);
    [| exact Hlen | simpl; rewrite Hhs; reflexivity].
  unfold bind at 1, refresh_one at 1. rewrite (bind_Ok _ _ _ _ _ Ht). simpl.
  rewrite (bind_Ok _ _ _ _ _ (close_owns s1 wd h Ho1)). unfold ret at 1.
  apply for_values_changed. simpl. rewrite Hrest. lia.
Qed.

Lemma refresh_stops_at_first_stale_item_witness :
  refresh Scenario.memo_gone =
    (Raise dict_changed_size,
     closed 1 (run (truth 0%nat)
                   (mkState (handlers Scenario.memo_gone) (heap Scenario.memo_gone)
                            (world Scenario.memo_gone)
                            (trace Scenario.memo_gone ++ [EvRefresh])))) /\
  handlers (closed 1 (run (truth 0%nat)
                          (mkState (handlers Scenario.memo_gone) (heap Scenario.memo_gone)
                                   (world Scenario.memo_gone)
                                   (trace Scenario.memo_gone ++ [EvRefresh]))))
    = [(2%Z, 1%nat)].
Proof.
  apply (refresh_stops_at_first_stale_item Scenario.memo_gone _ 1%Z 0%nat [(2%Z, 1%nat)]).
  - unfold Scenario.memo_gone, Scenario.tracked.
    apply reach_exec. apply reachable_exec_all. apply reach_initial.
  - reflexivity.
  - reflexivity.
Defined.
